(** * dagu: executor, precondition and socket-frontend core

    A shallow embedding of parts of the repository, with the properties
    they are specified to have:

    - [digraph]: precondition evaluation ([Condition.eval], [evalCondition],
      [EvalConditions]);
    - [sock]: the unix-socket frontend ([Server.Serve], [Server.Shutdown],
      [httpResponseWriter.Write]);
    - [executor]: the docker executor ([newDocker], [SetStdout],
      [SetStderr], [Kill], [Run], [execInContainer], [attachAndWait]);
    - [sshexec]: the ssh executor ([newSSHExec], [Run], [Kill]);
    - [scheduler]: the statuses and the checks of the scheduler tests;
    - [engine]: starting a DAG ([Start], [escapeArg]);
    - [jsondb]: the latest status files ([filterLatest], [latest],
      [latestToday]);
    - [reporter]: the mails about a run ([ReportStep], [SendMail]).

    Go values that may be nil are options; functions returning
    [(T, error)] return a pair whose second component is [option error];
    calls into the operating system, the shell or the docker daemon thread
    an explicit world. *)

From Stdlib Require Import ZArith Lia Ascii String.
From stdpp Require Import base option strings list sorting gmap pretty.

Local Open Scope string_scope.
Local Open Scope Z_scope.
Local Open Scope list_scope.

(** ** Go errors *)

Module goerr.

(** An error value.  [sentinel] is a package-level variable such as
    [ErrConditionNotMet], identified by its message; [errorString] is a
    fresh value made by [errors.New] or by [fmt.Errorf] without the verb
    [%w]; [wrapError] is made by [fmt.Errorf] with [%w] and remembers the
    wrapped error. *)
Inductive error : Type :=
| sentinel (msg : string)
| errorString (msg : string)
| wrapError (msg : string) (err : error).

(** The method [Error()]. *)
Definition Error (e : error) : string :=
  match e with
  | sentinel msg => msg
  | errorString msg => msg
  | wrapError msg _ => msg
  end.

(** [err == target]: only package-level sentinels are ever used as
    targets, and they are compared by identity. *)
Definition same (err target : error) : bool :=
  match err, target with
  | sentinel a, sentinel b => bool_decide (a = b)
  | _, _ => false
  end.

(** [errors.Is(err, target)]: walks the chain of wrapped errors. *)
Fixpoint errors_Is (err target : error) : bool :=
  same err target ||
  match err with
  | wrapError _ inner => errors_Is inner target
  | _ => false
  end.

(** [fmt.Errorf] without [%w], with the message already formatted. *)
Definition Errorf (msg : string) : error := errorString msg.

(** [fmt.Errorf] with one [%w] operand. *)
Definition Errorf_w (msg : string) (wrapped : error) : error :=
  wrapError msg wrapped.

End goerr.

Import goerr.

(** ** Package digraph: preconditions *)

Module digraph.

Definition ErrConditionNotMet : error := sentinel "condition was not met".

Record Condition : Type := mkCondition {
  Command : string;     (* Command to evaluate *)
  Condition_ : string;  (* Condition to evaluate *)
  Expected : string     (* Expected value *)
}.

(** What [IsStepContext] and [IsContext] tell about a [context.Context]. *)
Inductive Context : Type :=
| StepCtx     (* IsStepContext(ctx) *)
| DagCtx      (* IsContext(ctx), not a step context *)
| PlainCtx.   (* neither *)

Definition IsStepContext (ctx : Context) : bool :=
  match ctx with StepCtx => true | _ => false end.

Definition IsContext (ctx : Context) : bool :=
  match ctx with DagCtx => true | _ => false end.

Section Eval.

(** The state of the machine the commands run on. *)
Context {World : Type}.

(** [GetStepContext(ctx).EvalString], [GetContext(ctx).EvalString] and
    [cmdutil.EvalString]: they expand variables and run command
    substitutions, so they read and change the world. *)
Variable StepContext_EvalString : string -> World -> (string * option error) * World.
Variable Context_EvalString : string -> World -> (string * option error) * World.
Variable cmdutil_EvalString : string -> World -> (string * option error) * World.

(** [cmdutil.GetShellCommand("")]. *)
Variable shell : string.

(** [exec.CommandContext(ctx, argv...).Output()], the output dropped. *)
Variable exec_Output : list string -> World -> option error * World.

Definition Condition_evalCommand (c : Condition) (ctx : Context) (w : World)
  : (bool * option error) * World :=
  let '((command, err), w1) :=
    if IsStepContext ctx then StepContext_EvalString (Command c) w
    else if IsContext ctx then Context_EvalString (Command c) w
    else cmdutil_EvalString (Command c) w in
  match err with
  | Some err => ((false, Some err), w1)
  | None =>
      let commandToRun := command in
      let argv :=
        if bool_decide (shell = "") then [commandToRun]
        else [shell; "-c"; commandToRun] in
      let '(err, w2) := exec_Output argv w1 in
      match err with
      | Some err =>
          ((false,
            Some (Errorf_w (Error ErrConditionNotMet +:+ ": " +:+ Error err)
                           ErrConditionNotMet)), w2)
      | None => ((true, None), w2)
      end
  end.

Definition Condition_evalCondition (c : Condition) (ctx : Context) (w : World)
  : (bool * option error) * World :=
  let '((evaluatedVal, err), w1) :=
    if IsStepContext ctx then StepContext_EvalString (Condition_ c) w
    else Context_EvalString (Condition_ c) w in
  match err with
  | Some err => ((false, Some err), w1)
  | None => ((bool_decide (Expected c = evaluatedVal), None), w1)
  end.

(** [Condition.eval]. *)
Definition Condition_eval (c : Condition) (ctx : Context) (w : World)
  : (bool * option error) * World :=
  if negb (bool_decide (Condition_ c = "")) then Condition_evalCondition c ctx w
  else if negb (bool_decide (Command c = "")) then Condition_evalCommand c ctx w
  else ((false, Some (Errorf ("invalid condition: Condition=" +:+ Condition_ c))), w).

(** The package-level function [evalCondition]. *)
Definition evalCondition (ctx : Context) (c : Condition) (w : World)
  : option error * World :=
  let '((matched, err), w1) := Condition_eval c ctx w in
  match err with
  | Some err =>
      if errors_Is err ErrConditionNotMet then (Some err, w1)
      else (Some (Errorf ("failed to evaluate condition: Condition=" +:+ Condition_ c
                          +:+ " Error=" +:+ Error err)), w1)
  | None =>
      if negb matched then
        (Some (Errorf_w (Error ErrConditionNotMet +:+ ": Condition=" +:+ Condition_ c
                         +:+ " Expected=" +:+ Expected c) ErrConditionNotMet), w1)
      else (None, w1)
  end.

Fixpoint EvalConditions (ctx : Context) (cond : list Condition) (w : World)
  : option error * World :=
  match cond with
  | [] => (None, w)
  | c :: rest =>
      match evalCondition ctx c w with
      | (Some err, w1) => (Some err, w1)
      | (None, w1) => EvalConditions ctx rest w1
      end
  end.

(** A condition is met in world [w] when [Condition.eval] reports a
    match and no error. *)
Definition Met (ctx : Context) (c : Condition) (w w' : World) : Prop :=
  Condition_eval c ctx w = ((true, None), w').

(** Every condition of the list is met, each evaluated in the world the
    previous one left. *)
Inductive AllMet (ctx : Context) : list Condition -> World -> World -> Prop :=
| AllMet_nil w : AllMet ctx [] w w
| AllMet_cons c cs w w1 w2 :
    Met ctx c w w1 -> AllMet ctx cs w1 w2 -> AllMet ctx (c :: cs) w w2.

(** The evaluation of [c] in [w] did not report met: a mismatch, or an
    error of the evaluation. *)
Definition Mismatch (ctx : Context) (c : Condition) (w : World) : Prop :=
  (Condition_eval c ctx w).1 = (false, None).

Definition FailedWith (ctx : Context) (c : Condition) (w : World) (e0 : error) : Prop :=
  (Condition_eval c ctx w).1.2 = Some e0.

End Eval.

(** A machine on which nothing fails: strings evaluate to themselves and
    every command succeeds; the world lists the commands that ran. *)
Definition quiet_EvalString (s : string) (w : list (list string))
  : (string * option error) * list (list string) := ((s, None), w).

Definition quiet_Output (argv : list string) (w : list (list string))
  : option error * list (list string) := (None, (w ++ [argv])%list).

Definition quiet_EvalConditions :=
  EvalConditions quiet_EvalString quiet_EvalString quiet_EvalString "sh" quiet_Output.

End digraph.

(** ** Package sock: the unix-socket frontend *)

Module sock.

Definition ErrServerRequestedShutdown : error :=
  sentinel "socket frontend is requested to shutdown".

(** [os.ErrClosed] and the errors of the system calls used below. *)
Definition os_ErrClosed : error := sentinel "file already closed".
Definition net_ErrClosed : error := sentinel "use of closed network connection".
Definition ENOENT : error := sentinel "no such file or directory".
Definition ENOTEMPTY : error := sentinel "directory not empty".
Definition EADDRINUSE : error := sentinel "address already in use".

(** What a path of the file system names. *)
Inductive FileKind : Type :=
| RegularFile
| SocketFile
| Directory (empty : bool).

(** A [net.Listener] made by [net.Listen("unix", path)].  It is the
    standard library's [UnixListener], which remembers its path, whether
    it unlinks the path when closed (it does when [net.Listen] made it),
    whether that unlink has happened ([unlinkOnce]), and whether its
    descriptor is closed. *)
Record Listener : Type := mkListener {
  path : string;
  unlink : bool;
  unlinked : bool;
  closed : bool
}.

(** The [Server] struct; [handlerFunc], [logger] and [mu] carry no state
    of their own: the handler and the logger show in the trace, and the
    mutex makes [Shutdown] run as one step. *)
Record Server : Type := mkServer {
  addr : string;
  listener : option Listener;
  quit : bool
}.

(** A [net.Conn], named by a number. *)
Definition Conn : Type := nat.

(** [http.Header]. *)
Definition Header : Type := list (string * list string).

(** The [http.Response] that [Write] builds. *)
Record Response : Type := mkResponse {
  StatusCode : Z;
  ProtoMajor : Z;
  ProtoMinor : Z;
  Body : string;
  Header_ : Header
}.

(** What the program does to the outside, in the order it does it. *)
Inductive Event : Type :=
| EvRemove (p : string) (err : option error)   (* os.Remove(p) *)
| EvListen (p : string) (err : option error)   (* net.Listen("unix", p) *)
| EvSend (err : option error)                  (* listen <- err *)
| EvClose (p : string) (err : option error)    (* listener.Close() *)
| EvDebug (msg : string)                       (* logger.Debug *)
| EvError (msg : string) (err : error)         (* logger.Error *)
| EvHandle (c : Conn)                          (* go func() { ... handlerFunc ... conn.Close() } *)
| EvRespond (c : Conn) (err : option error).   (* response.Write(conn) *)

(** The machine: no other process touches the paths of the file system
    that the server uses, and permissions are not modelled, so a file
    that is there can be removed. *)
Record World : Type := mkWorld {
  fs : gmap string FileKind;          (* the file system *)
  conns : gmap Conn (list Response);  (* open connections and what was written to them *)
  trace : list Event
}.

Definition log (e : Event) (w : World) : World :=
  mkWorld (fs w) (conns w) (trace w ++ [e])%list.

Definition set_fs (f : gmap string FileKind) (w : World) : World :=
  mkWorld f (conns w) (trace w).

Definition set_conns (c : gmap Conn (list Response)) (w : World) : World :=
  mkWorld (fs w) c (trace w).

(** An address in the abstract namespace (or the empty address, which
    the kernel binds to one) names no file. *)
Definition is_abstract (p : string) : bool :=
  match p with
  | EmptyString => true
  | String a _ => bool_decide (a = "@"%char)
  end.

(** [syscall.Unlink]: removes a file or a socket, never a directory. *)
Definition syscall_Unlink (p : string) (f : gmap string FileKind) : gmap string FileKind :=
  match f !! p with
  | Some RegularFile | Some SocketFile => delete p f
  | _ => f
  end.

(** [os.Remove]: removes a file, a socket or an empty directory. *)
Definition os_Remove (p : string) (w : World) : option error * World :=
  match fs w !! p with
  | None => (Some ENOENT, log (EvRemove p (Some ENOENT)) w)
  | Some (Directory false) => (Some ENOTEMPTY, log (EvRemove p (Some ENOTEMPTY)) w)
  | Some _ => (None, log (EvRemove p None) (set_fs (delete p (fs w)) w))
  end.

(** What one call of [listener.Accept()] gives back. *)
Inductive Accepted : Type :=
| GotConn (c : Conn)
| GotError (err : error).

(** What happens around one call of [Accept], from the goroutine of
    [Serve]'s point of view. *)
Inductive Occurrence : Type :=
| Arrives (a : Accepted)
    (* Accept returns, and [quit] is read before anything else runs *)
| ArrivesThenShutdown (a : Accepted)
    (* Accept returns, and another goroutine runs Shutdown before [quit] is read *)
| ShutdownWhileBlocked.
    (* another goroutine runs Shutdown while Accept is blocked *)

(** How a call that may block ends. *)
Inductive Outcome (A : Type) : Type :=
| Returned (a : A)
| Blocked.
Arguments Returned {A} a.
Arguments Blocked {A}.

Section Frontend.

(** Faults of the environment: [listen_fails p] is the error [net.Listen]
    meets at [p] for a reason other than the path being taken (a missing
    directory, a path that is too long, ...); [close_fails p] is the error
    of closing the descriptor of an open listener. *)
Variable listen_fails : string -> option error.
Variable close_fails : string -> option error.

(** [net.Listen("unix", p)]: binding creates the socket file. *)
Definition net_Listen (p : string) (w : World) : (option Listener * option error) * World :=
  match listen_fails p with
  | Some err => ((None, Some err), log (EvListen p (Some err)) w)
  | None =>
      if is_abstract p then
        ((Some (mkListener p true false false), None), log (EvListen p None) w)
      else
        match fs w !! p with
        | Some _ => ((None, Some EADDRINUSE), log (EvListen p (Some EADDRINUSE)) w)
        | None =>
            ((Some (mkListener p true false false), None),
             log (EvListen p None) (set_fs (<[p := SocketFile]> (fs w)) w))
        end
  end.

(** [UnixListener.Close], as the standard library has it: the first
    call unlinks the socket file the listener made (unless the address is
    abstract), then the descriptor is closed; closing it again is an
    error.  [Shutdown] relies on it to remove the socket file. *)
Definition Listener_Close (l : Listener) (w : World) : option error * Listener * World :=
  let w1 :=
    if negb (unlinked l) && negb (is_abstract (path l)) && unlink l
    then set_fs (syscall_Unlink (path l) (fs w)) w else w in
  let err := if closed l then Some net_ErrClosed else close_fails (path l) in
  (err, mkListener (path l) (unlink l) true true, log (EvClose (path l) err) w1).

(** [Server.Shutdown]. *)
Definition Shutdown (srv : Server) (w : World) : option error * Server * World :=
  if negb (quit srv) then
    let srv1 := mkServer (addr srv) (listener srv) true in
    match listener srv1 with
    | Some l =>
        let '(err, l1, w1) := Listener_Close l w in
        let w2 :=
          match err with
          | Some e =>
              if negb (errors_Is e os_ErrClosed) then log (EvError "close listener" e) w1
              else w1
          | None => w1
          end in
        (err, mkServer (addr srv1) (Some l1) (quit srv1), w2)
    | None => (None, srv1, w)
    end
  else (None, srv, w).

(** An [Accept] on a closed listener fails at once. *)
Definition Listener_Accept (l : option Listener) (a : Accepted) : Accepted :=
  match l with
  | Some l => if closed l then GotError net_ErrClosed else a
  | None => a
  end.

(** The function deferred by [Serve]. *)
Definition Serve_deferred (srv : Server) (w : World) : Server * World :=
  let '(_, srv1, w1) := Shutdown srv w in
  let '(_, w2) := os_Remove (addr srv1) w1 in
  (srv1, w2).

(** The tail of one turn of the accept loop, from [srv.quit.Load()]
    on: [Some err] when [Serve] returns [err], [None] when the loop goes
    round again. *)
Definition after_Accept (a : Accepted) (srv : Server) (w : World) : option error * World :=
  if quit srv then (Some ErrServerRequestedShutdown, w)
  else
    match a with
    | GotConn c => (None, log (EvHandle c) w)
    | GotError _ => (None, w)
    end.

(** One call of [srv.listener.Accept()] and what the other goroutines do
    around it: [Some a] when the call returned [a], [None] when it is
    still blocked. *)
Definition Accept (o : Occurrence) (srv : Server) (w : World)
  : option Accepted * Server * World :=
  match o with
  | Arrives a => (Some (Listener_Accept (listener srv) a), srv, w)
  | ArrivesThenShutdown a =>
      let a1 := Listener_Accept (listener srv) a in
      let '(_, srv1, w1) := Shutdown srv w in
      (Some a1, srv1, w1)
  | ShutdownWhileBlocked =>
      let '(_, srv1, w1) := Shutdown srv w in
      match listener srv1 with
      | Some l =>
          if closed l then (Some (GotError net_ErrClosed), srv1, w1)
          else (None, srv1, w1)
      | None => (None, srv1, w1)
      end
  end.

(** The accept loop of [Serve], one occurrence at a time; it is blocked
    in [Accept] when the occurrences are used up. *)
Fixpoint Serve_loop (occ : list Occurrence) (srv : Server) (w : World)
  : Outcome error * Server * World :=
  match occ with
  | [] => (Blocked, srv, w)
  | o :: rest =>
      let '(a, srv1, w1) := Accept o srv w in
      match a with
      | None => Serve_loop rest srv1 w1   (* Accept is still blocked *)
      | Some a =>
          match after_Accept a srv1 w1 with
          | (Some err, w2) =>
              let '(srv3, w3) := Serve_deferred srv1 w2 in
              (Returned err, srv3, w3)
          | (None, w2) => Serve_loop rest srv1 w2
          end
      end
  end.

(** [Server.Serve]; [listen] tells whether the channel is not nil. *)
Definition Serve (listen : bool) (occ : list Occurrence) (srv : Server) (w : World)
  : Outcome error * Server * World :=
  let '(_, w1) := os_Remove (addr srv) w in
  let '((l, err), w2) := net_Listen (addr srv) w1 in
  let srv1 := mkServer (addr srv) l (quit srv) in
  match err with
  | Some e =>
      let w3 := if listen then log (EvSend (Some e)) w2 else w2 in
      (Returned e, srv1, w3)
  | None =>
      let w3 := if listen then log (EvSend None) w2 else w2 in
      let w4 := log (EvDebug "Unix socket is listening") w3 in
      Serve_loop occ srv1 w4
  end.

(** [NewServer]. *)
Definition NewServer (addr : string) : Server * option error :=
  (mkServer addr None false, None).

(** The [httpResponseWriter] struct. *)
Record httpResponseWriter : Type := mkWriter {
  conn : Conn;
  header : Header;
  statusCode : Z
}.

Definition StatusOK : Z := 200.

Definition newHTTPResponseWriter (c : Conn) : httpResponseWriter :=
  mkWriter c [] StatusOK.

(** [response.Write(conn)]: the response reaches an open connection and
    fails on one that is closed. *)
Definition Response_Write (r : Response) (c : Conn) (w : World) : option error * World :=
  match conns w !! c with
  | Some got =>
      (None, log (EvRespond c None) (set_conns (<[c := (got ++ [r])%list]> (conns w)) w))
  | None => (Some net_ErrClosed, log (EvRespond c (Some net_ErrClosed)) w)
  end.

(** [httpResponseWriter.Write]. *)
Definition Write (hw : httpResponseWriter) (data : list Byte.byte) (w : World)
  : (Z * option error) * World :=
  let response :=
    mkResponse (statusCode hw) 1 0 (String.string_of_list_byte data) (header hw) in
  let '(_, w1) := Response_Write response (conn hw) w in
  ((0, None), w1).

Definition WriteHeader (hw : httpResponseWriter) (code : Z) : httpResponseWriter :=
  mkWriter (conn hw) (header hw) code.

End Frontend.

(** The number of calls of [listener.Close()] in a trace. *)
Definition is_close (e : Event) : bool :=
  match e with EvClose _ _ => true | _ => false end.

Definition closes (t : list Event) : nat := length (List.filter is_close t).

(** Whether a trace has an entry of [logger.Error]. *)
Definition is_error_log (e : Event) : bool :=
  match e with EvError _ _ => true | _ => false end.

(** An environment in which nothing fails. *)
Definition no_fault (p : string) : option error := None.

(** An empty machine: no file, no connection, nothing done yet. *)
Definition empty_World : World := mkWorld ∅ ∅ [].

(** A socket path, a machine where a file was left at it, and a server
    that listens on it. *)
Definition sock_path : string := "/tmp/dagu.sock".

Definition stale_World : World := mkWorld {[sock_path := RegularFile]} ∅ [].

Definition bound_Server : Server :=
  mkServer sock_path (Some (mkListener sock_path true false false)) false.

Definition bound_World : World := mkWorld {[sock_path := SocketFile]} ∅ [].

Definition EMFILE : error := errorString "accept: too many open files".

(** [w'] continues [w]: its trace is the trace of [w] and more. *)
Definition extends (w w' : World) : Prop := exists t, trace w' = trace w ++ t.



(** The connections among the results of [Accept], in order. *)
Fixpoint conns_of (l : list Accepted) : list Conn :=
  match l with
  | [] => []
  | GotConn c :: rest => c :: conns_of rest
  | GotError _ :: rest => conns_of rest
  end.

(** The connections for which a trace starts the goroutine of [Serve],
    in the order of the [go] statements. *)
Fixpoint goroutines (t : list Event) : list Conn :=
  match t with
  | [] => []
  | EvHandle c :: rest => c :: goroutines rest
  | _ :: rest => goroutines rest
  end.

(** [conn.Close()]: the connection is open no more. *)
Definition Conn_Close (c : Conn) (w : World) : World :=
  set_conns (delete c (conns w)) w.

(** The goroutine that [Serve] starts for an accepted connection, run in
    the world [w]: [http_ReadRequest] is what [http.ReadRequest] gives
    for the connection, a request or an error, and [handlerFunc] is the
    handler of the server. *)
Definition serve_conn {Request : Type} (http_ReadRequest : Conn -> Request + error)
    (handlerFunc : httpResponseWriter -> Request -> World -> World)
    (c : Conn) (w : World) : World :=
  let w1 :=
    match http_ReadRequest c with
    | inr err => log (EvError "read request" err) w
    | inl request => handlerFunc (newHTTPResponseWriter c) request w
    end in
  Conn_Close c w1.

(** A handler that calls [Write] once for each of the byte slices. *)
Fixpoint Write_all (hw : httpResponseWriter) (ds : list (list Byte.byte)) (w : World)
  : list (Z * option error) * World :=
  match ds with
  | [] => ([], w)
  | d :: rest =>
      let '(r, w1) := Write hw d w in
      let '(rs, w2) := Write_all hw rest w1 in
      (r :: rs, w2)
  end.

(** A directory with files in it at the socket path. *)
Definition blocked_World : World := mkWorld {[sock_path := Directory false]} ∅ [].

End sock.

(** ** Package executor: the docker executor *)

Module executor.

(** [context.Canceled], what [ctx.Err()] is after the cancel function ran. *)
Definition context_Canceled : error := sentinel "context canceled".

(** An [io.Writer], named by a number; [os.Stdout] is writer 1. *)
Definition Writer : Type := nat.
Definition os_Stdout : Writer := 1%nat.

(** The part of [digraph.Step] the executor reads. *)
Record Step : Type := mkStep {
  Command : string;
  Args : list string
}.

(** [container.Config], the fields [Run] writes. *)
Record Config : Type := mkConfig {
  Image : string;
  Cmd : list string
}.

(** [types.ExecConfig]. *)
Record ExecConfig : Type := mkExecConfig {
  User : string;
  Privileged : bool;
  Tty : bool;
  AttachStdin : bool;
  AttachStdout : bool;
  AttachStderr : bool;
  ExecCmd : list string;
  Env : list string;
  WorkingDir : string
}.

(** The function values stored in the field [cancel]: the cancel function
    of [context.WithCancel] for context [ctx], or the closure
    [func() { removeContainer(); cancelFunc() }] of [Run], which captured
    the variable [removing], the container ID and the context. *)
Inductive Func : Type :=
| cancelFunc (ctx : nat)
| removeAndCancel (removing : nat) (id : string) (ctx : nat).

(** The [docker] struct ([hostConfig] is passed on unread). *)
Record docker : Type := mkDocker {
  image : string;
  containerName : string;
  pull : bool;
  autoRemove : bool;
  step : Step;
  stdout : Writer;
  context : option nat;
  cancel : option Func;
  containerConfig : Config;
  execConfig : ExecConfig
}.

(** The streams multiplexed by the daemon ([stdcopy.StdType]). *)
Inductive StdType : Type := Stdin | Stdout | Stderr | Systemerr.

Definition Frame : Type := (StdType * string)%type.

(** Calls that leave the process, in order. *)
Inductive Call : Type :=
| CallContainerRemove (id : string) (err : option error)
| CallContainerCreate (cfg : Config)
| CallContainerStart (id : string)
| CallExecCreate (name : string) (cfg : ExecConfig)
| CallClose                                 (* cli.Close() *)
| LogError (msg : string) (err : error).    (* logger.Error *)

Record World : Type := mkWorld {
  ctxs : gmap nat bool;                (* contexts of WithCancel, true once cancelled *)
  cells : gmap nat bool;               (* the captured variables [removing] *)
  outputs : gmap Writer (list string); (* what each writer received *)
  calls : list Call;
  next : nat                           (* the next fresh name *)
}.

Definition set_ctxs (c : gmap nat bool) (w : World) : World :=
  mkWorld c (cells w) (outputs w) (calls w) (next w).
Definition set_cells (c : gmap nat bool) (w : World) : World :=
  mkWorld (ctxs w) c (outputs w) (calls w) (next w).
Definition set_outputs (o : gmap Writer (list string)) (w : World) : World :=
  mkWorld (ctxs w) (cells w) o (calls w) (next w).
Definition record (c : Call) (w : World) : World :=
  mkWorld (ctxs w) (cells w) (outputs w) (calls w ++ [c])%list (next w).
Definition bump (w : World) : World :=
  mkWorld (ctxs w) (cells w) (outputs w) (calls w) (S (next w)).

(** [out.Write(s)]. *)
Definition write (out : Writer) (s : string) (w : World) : World :=
  set_outputs (<[out := (default [] (outputs w !! out) ++ [s])%list]> (outputs w)) w.

Definition written (out : Writer) (w : World) : list string :=
  default [] (outputs w !! out).

Definition ctx_Done (ctx : nat) (w : World) : bool :=
  default false (ctxs w !! ctx).

(** [stdcopy.StdCopy(dstout, dsterr, src)]: every frame goes to the
    writer of its stream; a frame of the daemon's error stream ends the
    copy with that error. *)
Fixpoint StdCopy (dstout dsterr : Writer) (src : list Frame) (w : World)
  : option error * World :=
  match src with
  | [] => (None, w)
  | (Stdin, s) :: rest | (Stdout, s) :: rest => StdCopy dstout dsterr rest (write dstout s w)
  | (Stderr, s) :: rest => StdCopy dstout dsterr rest (write dsterr s w)
  | (Systemerr, s) :: _ => (Some (Errorf ("error from daemon in stream: " +:+ s)), w)
  end.

Definition SetStdout (e : docker) (out : Writer) : docker :=
  mkDocker (image e) (containerName e) (pull e) (autoRemove e) (step e)
           out (context e) (cancel e) (containerConfig e) (execConfig e).

Definition SetStderr (e : docker) (out : Writer) : docker :=
  mkDocker (image e) (containerName e) (pull e) (autoRemove e) (step e)
           out (context e) (cancel e) (containerConfig e) (execConfig e).

Definition set_cancel (e : docker) (ctx : option nat) (f : option Func) : docker :=
  mkDocker (image e) (containerName e) (pull e) (autoRemove e) (step e)
           (stdout e) ctx f (containerConfig e) (execConfig e).

Definition set_containerConfig (e : docker) (c : Config) : docker :=
  mkDocker (image e) (containerName e) (pull e) (autoRemove e) (step e)
           (stdout e) (context e) (cancel e) c (execConfig e).

(** How a call ends: it returns, it panics, or it has not returned yet. *)
Inductive Outcome (A : Type) : Type :=
| Returned (a : A)
| Panicked
| Pending.
Arguments Returned {A} a.
Arguments Panicked {A}.
Arguments Pending {A}.

(** One answer of [ContainerExecInspect]. *)
Record ExecInspect : Type := mkExecInspect {
  Running : bool;
  ExitCode : Z
}.

(** One turn of the loop that waits for the exec: the answer of the
    daemon, and whether another goroutine calls [Kill] before the
    [select]. *)
Record Poll : Type := mkPoll {
  answer : ExecInspect;
  failure : option error;
  killed : bool
}.

(** What the channels of [ContainerWait] deliver first. *)
Inductive Wait : Type :=
| WaitErr (err : option error)   (* a value on errCh *)
| WaitStatus (StatusCode : Z)    (* a value on statusCh *)
| WaitNothing.                   (* nothing yet *)

(** The docker daemon and client library, as the answers they give. *)
Record Daemon : Type := mkDaemon {
  NewClientWithOpts : option error;
  ImagePull : string -> string * option error;
  io_Copy : option error;
  ContainerCreate : Config -> string * option error;
  ContainerRemove : string -> option error;
  ContainerStart : string -> option error;
  ContainerLogs : string -> list Frame * option error;
  ContainerWait : string -> Wait;
  ContainerInspect : string -> bool * option error;
  ContainerExecCreate : string -> ExecConfig -> string * option error;
  ContainerExecAttach : string -> list Frame * option error;
  ContainerExecInspect : string -> list Poll
}.

Section Docker.

Variable dk : Daemon.

(** The closure [removeContainer] of [Run]; [removing] names its
    captured variable. *)
Definition removeContainer (e : docker) (removing : nat) (id : string) (w : World) : World :=
  if negb (autoRemove e) || default false (cells w !! removing) then w
  else
    let w1 := set_cells (<[removing := true]> (cells w)) w in
    let err := ContainerRemove dk id in
    let w2 := record (CallContainerRemove id err) w1 in
    match err with
    | Some err => record (LogError "docker executor: remove container" err) w2
    | None => w2
    end.

(** Calling a function value; calling nil panics. *)
Definition invoke (f : option Func) (e : docker) (w : World) : option World :=
  match f with
  | None => None
  | Some (cancelFunc ctx) => Some (set_ctxs (<[ctx := true]> (ctxs w)) w)
  | Some (removeAndCancel removing id ctx) =>
      let w1 := removeContainer e removing id w in
      Some (set_ctxs (<[ctx := true]> (ctxs w1)) w1)
  end.

(** [docker.Kill]; the signal is not read. *)
Definition Kill (e : docker) (w : World) : Outcome (option error) * World :=
  if bool_decide (cancel e ≠ None) then
    match invoke (cancel e) e w with
    | Some w1 => (Returned None, w1)
    | None => (Panicked, w)
    end
  else (Returned None, w).

(** The loop of [execInContainer] that waits for the exec to end. *)
Fixpoint exec_wait (polls : list Poll) (e : docker) (ctx : nat) (w : World)
  : Outcome (option error) * World :=
  match polls with
  | [] => (Pending, w)
  | p :: rest =>
      match failure p with
      | Some err =>
          (Returned (Some (Errorf_w ("failed to inspect exec: " +:+ Error err) err)), w)
      | None =>
          if negb (Running (answer p)) then
            if negb (bool_decide (ExitCode (answer p) = 0)) then
              (Returned (Some (Errorf ("exec failed with exit code: "
                                       +:+ pretty (ExitCode (answer p))))), w)
            else (Returned None, w)
          else
            let w1 := if killed p then (Kill e w).2 else w in
            if ctx_Done ctx w1 then (Returned (Some context_Canceled), w1)
            else exec_wait rest e ctx w1
      end
  end.

(** The exec configuration that [execInContainer] creates. *)
Definition new_ExecConfig (e : docker) : ExecConfig :=
  mkExecConfig (User (execConfig e)) (Privileged (execConfig e))
               (Tty (execConfig e)) false true true
               (Command (step e) :: Args (step e))
               (Env (execConfig e)) (WorkingDir (execConfig e)).

(** [docker.execInContainer]. *)
Definition execInContainer (e : docker) (ctx : nat) (w : World)
  : Outcome (option error) * World :=
  let '(running, err) := ContainerInspect dk (containerName e) in
  match err with
  | Some err =>
      (Returned (Some (Errorf_w ("failed to inspect container " +:+ containerName e
                                 +:+ ": " +:+ Error err) err)), w)
  | None =>
      if negb running then
        (Returned (Some (Errorf ("container " +:+ containerName e +:+ " is not running"))), w)
      else
        let cfg := new_ExecConfig e in
        let '(execID, err) := ContainerExecCreate dk (containerName e) cfg in
        let w1 := record (CallExecCreate (containerName e) cfg) w in
        match err with
        | Some err =>
            (Returned (Some (Errorf_w ("failed to create exec: " +:+ Error err) err)), w1)
        | None =>
            let '(frames, err) := ContainerExecAttach dk execID in
            match err with
            | Some err =>
                (Returned (Some (Errorf_w ("failed to start exec: " +:+ Error err) err)), w1)
            | None =>
                (* go func() { stdcopy.StdCopy(e.stdout, e.stdout, resp.Reader) } *)
                let '(cerr, w2) := StdCopy (stdout e) (stdout e) frames w1 in
                let w3 :=
                  match cerr with
                  | Some cerr => record (LogError "docker executor: stdcopy" cerr) w2
                  | None => w2
                  end in
                exec_wait (ContainerExecInspect dk execID) e ctx w3
            end
        end
  end.

(** [docker.attachAndWait]. *)
Definition attachAndWait (e : docker) (containerID : string) (w : World)
  : Outcome (option error) * World :=
  let '(out, err) := ContainerLogs dk containerID in
  match err with
  | Some err => (Returned (Some err), w)
  | None =>
      (* go func() { stdcopy.StdCopy(e.stdout, e.stdout, out) } *)
      let '(cerr, w1) := StdCopy (stdout e) (stdout e) out w in
      let w2 :=
        match cerr with
        | Some cerr => record (LogError "docker executor: stdcopy" cerr) w1
        | None => w1
        end in
      match ContainerWait dk containerID with
      | WaitErr (Some err) => (Returned (Some err), w2)
      | WaitErr None => (Returned None, w2)
      | WaitStatus code =>
          if negb (bool_decide (code = 0)) then
            (Returned (Some (Errorf ("exit status " +:+ pretty code))), w2)
          else (Returned None, w2)
      | WaitNothing => (Pending, w2)
      end
  end.

(** The functions deferred by [Run] run when it returns, last first. *)
Definition when_returned {A} (r : Outcome A) (f : World -> World) (w : World) : World :=
  match r with
  | Returned _ => f w
  | _ => w
  end.

(** The part of [docker.Run] that creates, starts and awaits a new
    container, from [if e.image != ""] to the end. *)
Definition Run_container (e : docker) (ctx : nat) (w1 : World)
  : Outcome (option error) * docker * World :=
  let e :=
    if negb (bool_decide (image e = "")) then
      set_containerConfig e (mkConfig (image e) (Cmd (containerConfig e)))
    else e in
  let e :=
    set_containerConfig e
      (mkConfig (Image (containerConfig e)) (Command (step e) :: Args (step e))) in
  let '(id, err) := ContainerCreate dk (containerConfig e) in
  let w2 := record (CallContainerCreate (containerConfig e)) w1 in
  match err with
  | Some err => (Returned (Some err), e, record CallClose w2)
  | None =>
      let removing := next w2 in
      let w3 := bump (set_cells (<[removing := false]> (cells w2)) w2) in
      let e := set_cancel e (context e) (Some (removeAndCancel removing id ctx)) in
      let w4 := record (CallContainerStart id) w3 in
      match ContainerStart dk id with
      | Some err =>
          (Returned (Some err), e, record CallClose (removeContainer e removing id w4))
      | None =>
          let '(r, w5) := attachAndWait e id w4 in
          (r, e,
           when_returned r
             (fun w => record CallClose (removeContainer e removing id w)) w5)
      end
  end.

(** [docker.Run]; its context argument is not read. *)
Definition Run (e : docker) (w : World) : Outcome (option error) * docker * World :=
  let ctx := next w in
  let w := bump (set_ctxs (<[ctx := false]> (ctxs w)) w) in
  let e := set_cancel e (Some ctx) (Some (cancelFunc ctx)) in
  match NewClientWithOpts dk with
  | Some err => (Returned (Some err), e, w)
  | None =>
      if negb (bool_decide (containerName e = "")) then
        let '(r, w1) := execInContainer e ctx w in
        (r, e, when_returned r (record CallClose) w1)
      else
        let '(perr, w1) :=
          if pull e then
            let '(reader, err) := ImagePull dk (image e) in
            match err with
            | Some err => (Some err, w)
            | None =>
                match io_Copy dk with
                | Some err => (Some err, w)
                | None => (None, write (stdout e) reader w)
                end
            end
          else (None, w) in
        match perr with
        | Some err => (Returned (Some err), e, record CallClose w1)
        | None => Run_container e ctx w1
        end
  end.

(** The payloads that [StdCopy] copies: those before the first frame of
    the daemon's error stream. *)
Fixpoint payloads (src : list Frame) : list string :=
  match src with
  | [] => []
  | (Systemerr, _) :: _ => []
  | (_, s) :: rest => s :: payloads rest
  end.

(** The exit code that the polls of [ContainerExecInspect] report for
    the exec: the code of the first answer that is not running, when no
    poll fails and [Kill] is not called before it. *)
Fixpoint exec_exit (polls : list Poll) : option Z :=
  match polls with
  | [] => None
  | p :: rest =>
      match failure p with
      | Some _ => None
      | None =>
          if negb (Running (answer p)) then Some (ExitCode (answer p))
          else if killed p then None
          else exec_exit rest
      end
  end.

(** The container configuration that [Run] creates the container from. *)
Definition new_Config (e : docker) : Config :=
  mkConfig (if negb (bool_decide (image e = "")) then image e
            else Image (containerConfig e))
           (Command (step e) :: Args (step e)).

(** The exit status of the work that [Run] executes, in the words of the
    specification: the work is executed when the steps before it succeed
    (the client, the pull, the creation and the start of the container
    and its logs; or the inspection of the running container, the
    creation and the attachment of the exec), and its exit status is the
    status that [ContainerWait] delivers, or the exit code that
    [ContainerExecInspect] reports. *)
Definition exit_status (e : docker) : option Z :=
  match NewClientWithOpts dk with
  | Some _ => None
  | None =>
      if negb (bool_decide (containerName e = "")) then
        match ContainerInspect dk (containerName e) with
        | (true, None) =>
            match ContainerExecCreate dk (containerName e) (new_ExecConfig e) with
            | (execID, None) =>
                match ContainerExecAttach dk execID with
                | (_, None) => exec_exit (ContainerExecInspect dk execID)
                | _ => None
                end
            | _ => None
            end
        | _ => None
        end
      else
        let pulled :=
          if pull e then
            match ImagePull dk (image e) with
            | (_, None) => bool_decide (io_Copy dk = None)
            | _ => false
            end
          else true in
        if pulled then
          match ContainerCreate dk (new_Config e) with
          | (id, None) =>
              match ContainerStart dk id, ContainerLogs dk id with
              | None, (_, None) =>
                  match ContainerWait dk id with
                  | WaitStatus code => Some code
                  | _ => None
                  end
              | _, _ => None
              end
          | _ => None
          end
        else None
  end.


(** The client library sends an error on the error channel of
    [ContainerWait] only when there is one. *)
Definition sends_errors_only : Prop :=
  forall id, ContainerWait dk id <> WaitErr None.

End Docker.

(** A daemon that answers every call without an error and reports the
    exit status [code] for the container and for the exec. *)
Definition plain_Daemon (code : Z) : Daemon :=
  mkDaemon None (fun _ => ("pulled", None)) None (fun _ => ("c1", None))
           (fun _ => None) (fun _ => None)
           (fun _ => ([(Stdout, "out"); (Stderr, "err")], None))
           (fun _ => WaitStatus code)
           (fun _ => (true, None)) (fun _ _ => ("x1", None))
           (fun _ => ([(Stdout, "out"); (Stderr, "err")], None))
           (fun _ => [mkPoll (mkExecInspect true 0) None false;
                      mkPoll (mkExecInspect false code) None false]).

(** A client library that sends nil on the error channel of
    [ContainerWait]; the docker client never does. *)
Definition nil_error_Daemon : Daemon :=
  mkDaemon None (fun _ => ("pulled", None)) None (fun _ => ("c1", None))
           (fun _ => None) (fun _ => None) (fun _ => ([], None))
           (fun _ => WaitErr None)
           (fun _ => (true, None)) (fun _ _ => ("x1", None)) (fun _ => ([], None))
           (fun _ => []).

(** The executor that [newDocker] makes for an image, and the one it
    makes for an existing container. *)
Definition image_docker : docker :=
  mkDocker "alpine:latest" "" true true (mkStep "echo" ["hello"]) os_Stdout None None
           (mkConfig "" []) (mkExecConfig "" false false false false false [] [] "").

Definition exec_docker : docker :=
  mkDocker "" "worker" true false (mkStep "echo" ["hello"]) os_Stdout None None
           (mkConfig "" []) (mkExecConfig "" false false false false false [] [] "").

Definition empty_World : World := mkWorld ∅ ∅ ∅ [] 0.

(** *** The constructor [newDocker] *)

(** [container.HostConfig], the field [newDocker] reads. *)
Record HostConfig : Type := mkHostConfig {
  AutoRemove : bool
}.

(** A value of the map [step.ExecutorConfig.Config]: a boolean, a string,
    or anything else (the nested maps of the sections). *)
Inductive Value : Type :=
| VBool (b : bool)
| VString (s : string)
| VOther (payload : nat).

(** The type assertions [v.(bool)] and [v.(string)] on an entry of the
    map; a missing key gives nil, which is neither. *)
Definition as_bool (v : option Value) : option bool :=
  match v with Some (VBool b) => Some b | _ => None end.

Definition as_string (v : option Value) : option string :=
  match v with Some (VString s) => Some s | _ => None end.

(** The library mapstructure: [NewDecoder] and, for each of the three
    result types, [Decode] into a struct. *)
Record Mapstructure : Type := mkMapstructure {
  NewDecoder : option error;
  Decode_Config : Value -> Config -> Config * option error;
  Decode_HostConfig : Value -> HostConfig -> HostConfig * option error;
  Decode_ExecConfig : Value -> ExecConfig -> ExecConfig * option error
}.

Definition errNoTarget : error :=
  errorString "either containerName or image must be specified".

(** One of the three sections of [newDocker]: when the key is there, a
    decoder is made and the section is decoded into [result]. *)
Definition decode_section {A} (md : Mapstructure) (decode : Value -> A -> A * option error)
  (section : option Value) (result : A) : A * option error :=
  match section with
  | Some cfg =>
      match NewDecoder md with
      | Some err => (result, Some (Errorf_w ("failed to create decoder: " +:+ Error err) err))
      | None =>
          let '(result, err) := decode cfg result in
          match err with
          | Some err =>
              (result, Some (Errorf_w ("failed to decode config: " +:+ Error err) err))
          | None => (result, None)
          end
      end
  | None => (result, None)
  end.

(** [newDocker]; the map [step.ExecutorConfig.Config] is given beside
    the step, and the [hostConfig] beside the executor. *)
Definition newDocker (md : Mapstructure) (step : Step) (config : gmap string Value)
  : option (docker * HostConfig) * option error :=
  let '(containerConfig, err) :=
    decode_section md (Decode_Config md) (config !! "container") (mkConfig "" []) in
  match err with
  | Some err => (None, Some err)
  | None =>
  let '(hostConfig, err) :=
    decode_section md (Decode_HostConfig md) (config !! "host") (mkHostConfig false) in
  match err with
  | Some err => (None, Some err)
  | None =>
  let '(execConfig, err) :=
    decode_section md (Decode_ExecConfig md) (config !! "exec")
                   (mkExecConfig "" false false false false false [] [] "") in
  match err with
  | Some err => (None, Some err)
  | None =>
      let '(hostConfig, autoRemove) :=
        if AutoRemove hostConfig then (mkHostConfig false, true)
        else (hostConfig, false) in
      let autoRemove :=
        match as_bool (config !! "autoRemove") with
        | Some a => a
        | None => autoRemove
        end in
      let pull :=
        match as_bool (config !! "pull") with
        | Some p => p
        | None => true
        end in
      let exec :=
        mkDocker "" "" pull autoRemove step os_Stdout None None containerConfig execConfig in
      match as_string (config !! "containerName") with
      | Some containerName =>
          (Some (mkDocker (image exec) containerName (executor.pull exec)
                          (executor.autoRemove exec) (executor.step exec) (stdout exec)
                          (context exec) (cancel exec) (executor.containerConfig exec)
                          (executor.execConfig exec), hostConfig), None)
      | None =>
          match as_string (config !! "image") with
          | Some img =>
              (Some (mkDocker img (containerName exec) (executor.pull exec)
                              (executor.autoRemove exec) (executor.step exec) (stdout exec)
                              (context exec) (cancel exec) (executor.containerConfig exec)
                              (executor.execConfig exec), hostConfig), None)
          | None => (None, Some errNoTarget)
          end
      end
  end end end.

(** A mapstructure that decodes nothing and never fails. *)
Definition plain_Mapstructure : Mapstructure :=
  mkMapstructure None (fun _ c => (c, None)) (fun _ h => (h, None)) (fun _ x => (x, None)).

(** *** Counting calls *)

(** The calls that create, start or remove a container. *)
Definition is_container_call (c : Call) : bool :=
  match c with
  | CallContainerRemove _ _ | CallContainerCreate _ | CallContainerStart _ => true
  | _ => false
  end.

Definition is_removal (c : Call) : bool :=
  match c with CallContainerRemove _ _ => true | _ => false end.

(** The number of calls of [ContainerRemove] among the calls. *)
Definition removals (cs : list Call) : nat := length (List.filter is_removal cs).

(** The daemon [dk] with other output streams: [logs] for the logs of
    a container and [attached] for an attached exec. *)
Definition with_frames (logs attached : string -> list Frame) (dk : Daemon) : Daemon :=
  mkDaemon (NewClientWithOpts dk) (ImagePull dk) (io_Copy dk) (ContainerCreate dk)
           (ContainerRemove dk) (ContainerStart dk)
           (fun id => (logs id, (ContainerLogs dk id).2))
           (ContainerWait dk) (ContainerInspect dk) (ContainerExecCreate dk)
           (fun id => (attached id, (ContainerExecAttach dk id).2))
           (ContainerExecInspect dk).

(** A daemon whose container never ends. *)
Definition waiting_Daemon : Daemon :=
  mkDaemon None (fun _ => ("pulled", None)) None (fun _ => ("c1", None))
           (fun _ => None) (fun _ => None) (fun _ => ([], None))
           (fun _ => WaitNothing)
           (fun _ => (true, None)) (fun _ _ => ("x1", None)) (fun _ => ([], None))
           (fun _ => [mkPoll (mkExecInspect true 0) None false;
                      mkPoll (mkExecInspect true 0) None true;
                      mkPoll (mkExecInspect false 0) None false]).

(** The container that [Run] creates, if it gets that far: the client is
    made, the executor names no existing container, the pull (if any)
    succeeds and [ContainerCreate] gives an ID. *)
Definition created_container (dk : Daemon) (e : docker) : option string :=
  match NewClientWithOpts dk with
  | Some _ => None
  | None =>
      if negb (bool_decide (containerName e = "")) then None
      else
        let pulled :=
          if pull e then
            match ImagePull dk (image e) with
            | (_, None) => bool_decide (io_Copy dk = None)
            | _ => false
            end
          else true in
        if pulled then
          match ContainerCreate dk (new_Config e) with
          | (id, None) => Some id
          | _ => None
          end
        else None
  end.

Definition is_Returned {A} (r : Outcome A) : bool :=
  match r with Returned _ => true | _ => false end.

(** The calls of a removal of the container [id]: the call, and the log
    entry when it fails. *)
Definition removal_calls (dk : Daemon) (id : string) : list Call :=
  CallContainerRemove id (ContainerRemove dk id)
  :: match ContainerRemove dk id with
     | Some err => [LogError "docker executor: remove container" err]
     | None => []
     end.

End executor.

(** ** Package executor: the ssh executor *)

Module sshexec.

Definition Writer : Type := executor.Writer.
Definition os_Stdout : Writer := executor.os_Stdout.

(** A value of type [any], as far as [fmt.Sprintf("%v", v)] tells them
    apart: nil, a string, an integer, or a value of another type with the
    text that [%v] prints for it. *)
Inductive any : Type :=
| AnyNil
| AnyString (s : string)
| AnyInt (n : Z)
| AnyOther (text : string).

(** [fmt.Sprintf("%v", v)]. *)
Definition Sprintf_v (v : any) : string :=
  match v with
  | AnyNil => "<nil>"
  | AnyString s => s
  | AnyInt n => pretty n
  | AnyOther text => text
  end.

Record sshExecConfigDefinition : Type := mkDefinition {
  def_User : string;
  def_IP : string;
  def_Port : any;
  def_Key : string;
  def_Password : string;
  def_StrictHostKeyChecking : bool
}.

Record sshExecConfig : Type := mkSSHConfig {
  User : string;
  IP : string;
  Port : string;
  Key : string;
  Password : string
}.

(** [ssh.AuthMethod]: [ssh.PublicKeys(signer)] or [ssh.Password(p)]. *)
Inductive AuthMethod : Type :=
| PublicKeys (signer : nat)
| PasswordAuth (p : string).

(** [ssh.ClientConfig]; an authentication method is an interface value
    and may be nil; the host key callback is always
    [ssh.InsecureIgnoreHostKey()]. *)
Record ClientConfig : Type := mkClientConfig {
  ClientUser : string;
  Auth : list (option AuthMethod)
}.

(** The [sshExec] struct; a session is named by a number. *)
Record sshExec : Type := mkSSHExec {
  step : executor.Step;
  config : sshExecConfig;
  sshConfig : ClientConfig;
  stdout : Writer;
  session : option nat
}.

Definition errStrictHostKey : error :=
  sentinel "StrictHostKeyChecking is not supported yet".

(** [strings.Join]. *)
Fixpoint strings_Join (elems : list string) (sep : string) : string :=
  match elems with
  | [] => ""
  | [a] => a
  | a :: rest => a +:+ sep +:+ strings_Join rest sep
  end.

(** Whether the string has the byte [c]. *)
Fixpoint has_byte (c : ascii) (s : string) : bool :=
  match s with
  | EmptyString => false
  | String a rest => bool_decide (a = c) || has_byte c rest
  end.

(** [net.JoinHostPort]: a host with a colon is put in brackets. *)
Definition net_JoinHostPort (host port : string) : string :=
  if has_byte ":"%char host
  then "[" +:+ host +:+ "]:" +:+ port
  else host +:+ ":" +:+ port.

(** The command line that [Run] sends. *)
Definition command_line (st : executor.Step) : string :=
  strings_Join (executor.Command st :: executor.Args st) " ".

(** The streams of a session. *)
Inductive Stream : Type := SessionStdout | SessionStderr.

(** What the executor does outside, in order. *)
Inductive Event : Type :=
| EvDial (addr : string) (cfg : ClientConfig)
| EvNewSession
| EvRun (session : nat) (command : string)
| EvClose (session : nat).

Record World : Type := mkWorld {
  outputs : gmap Writer (list string);
  trace : list Event
}.

Definition log (e : Event) (w : World) : World :=
  mkWorld (outputs w) (trace w ++ [e]).

Definition write (out : Writer) (s : string) (w : World) : World :=
  mkWorld (<[out := default [] (outputs w !! out) ++ [s]]> (outputs w)) (trace w).

Definition written (out : Writer) (w : World) : list string :=
  default [] (outputs w !! out).

(** The session copies what the remote command writes to the writers
    [Stdout] and [Stderr] it was given. *)
Fixpoint copy_output (out err : Writer) (chunks : list (Stream * string)) (w : World)
  : World :=
  match chunks with
  | [] => w
  | (SessionStdout, s) :: rest => copy_output out err rest (write out s w)
  | (SessionStderr, s) :: rest => copy_output out err rest (write err s w)
  end.

(** The machine and the libraries around the executor. *)
Record Env (ConfigMap : Type) : Type := mkEnv {
  NewDecoder : option error;
  Decode : ConfigMap -> sshExecConfigDefinition * option error;
  os_ExpandEnv : string -> string;
  os_ReadFile : string -> list Byte.byte * option error;
  ssh_ParsePrivateKey : list Byte.byte -> nat * option error;
  ssh_Dial : string -> ClientConfig -> option error;
  NewSession : nat * option error;
  session_Run : nat -> string -> list (Stream * string) * option error;
  session_Close : nat -> option error
}.
Arguments NewDecoder {ConfigMap} _.
Arguments Decode {ConfigMap} _ _.
Arguments os_ExpandEnv {ConfigMap} _ _.
Arguments os_ReadFile {ConfigMap} _ _.
Arguments ssh_ParsePrivateKey {ConfigMap} _ _.
Arguments ssh_Dial {ConfigMap} _ _ _.
Arguments NewSession {ConfigMap} _.
Arguments session_Run {ConfigMap} _ _ _.
Arguments session_Close {ConfigMap} _ _.

Section SSH.

Context {ConfigMap : Type}.
Variable env : Env ConfigMap.

Definition getPublicKeySigner (path : string) : nat * option error :=
  let '(key, err) := os_ReadFile env path in
  match err with
  | Some err => (0%nat, Some err)
  | None =>
      let '(signer, err) := ssh_ParsePrivateKey env key in
      match err with
      | Some err => (0%nat, Some err)
      | None => (signer, None)
      end
  end.

Definition selectSSHAuthMethod (cfg : sshExecConfig) : option AuthMethod * option error :=
  if negb (bool_decide (String.length (Key cfg) = 0%nat)) then
    let '(signer, err) := getPublicKeySigner (Key cfg) in
    match err with
    | Some err => (None, Some err)
    | None => (Some (PublicKeys signer), None)
    end
  else (Some (PasswordAuth (Password cfg)), None).

(** [newSSHExec]; the map [step.ExecutorConfig.Config] is given beside
    the step. *)
Definition newSSHExec (st : executor.Step) (cm : ConfigMap)
  : option sshExec * option error :=
  match NewDecoder env with
  | Some err => (None, Some err)
  | None =>
      let '(def, err) := Decode env cm in
      match err with
      | Some err => (None, Some err)
      | None =>
          let port := os_ExpandEnv env (Sprintf_v (def_Port def)) in
          let port := if bool_decide (port = "") then "22" else port in
          let cfg :=
            mkSSHConfig (def_User def) (def_IP def) port (def_Key def) (def_Password def) in
          if def_StrictHostKeyChecking def then (None, Some errStrictHostKey)
          else
            let '(authMethod, err) := selectSSHAuthMethod cfg in
            match err with
            | Some err => (None, Some err)
            | None =>
                (Some (mkSSHExec st cfg (mkClientConfig (User cfg) [authMethod])
                                 os_Stdout None), None)
            end
      end
  end.

Definition SetStdout (e : sshExec) (out : Writer) : sshExec :=
  mkSSHExec (step e) (config e) (sshConfig e) out (session e).

Definition SetStderr (e : sshExec) (out : Writer) : sshExec :=
  mkSSHExec (step e) (config e) (sshConfig e) out (session e).

(** [sshExec.Kill]; the signal is not read. *)
Definition Kill (e : sshExec) (w : World) : option error * World :=
  match session e with
  | Some s => (session_Close env s, log (EvClose s) w)
  | None => (None, w)
  end.

(** [sshExec.Run]. *)
Definition Run (e : sshExec) (w : World) : option error * sshExec * World :=
  let addr := net_JoinHostPort (IP (config e)) (Port (config e)) in
  let w1 := log (EvDial addr (sshConfig e)) w in
  match ssh_Dial env addr (sshConfig e) with
  | Some err => (Some err, e, w1)
  | None =>
      let '(s, err) := NewSession env in
      let w2 := log EvNewSession w1 in
      match err with
      | Some err => (Some err, e, w2)
      | None =>
          let e := mkSSHExec (step e) (config e) (sshConfig e) (stdout e) (Some s) in
          let command := command_line (step e) in
          let '(chunks, err) := session_Run env s command in
          let w3 := copy_output (stdout e) (stdout e) chunks (log (EvRun s command) w2) in
          (* defer session.Close() *)
          (err, e, log (EvClose s) w3)
      end
  end.

End SSH.

(** A machine where everything works; the configuration map is the
    decoded definition itself. *)
Definition plain_Env : Env sshExecConfigDefinition :=
  mkEnv sshExecConfigDefinition None (fun def => (def, None)) (fun s => s)
        (fun _ => ([], None)) (fun _ => (1%nat, None)) (fun _ _ => None) (5%nat, None)
        (fun _ _ => ([(SessionStdout, "out"); (SessionStderr, "err")], None))
        (fun _ => None).

(** A step and an executor for it that logs in with a password. *)
Definition ssh_step : executor.Step := executor.mkStep "echo" ["hello world"].

Definition plain_sshExec : sshExec :=
  mkSSHExec ssh_step (mkSSHConfig "alice" "10.0.0.1" "22" "" "secret")
            (mkClientConfig "alice" [Some (PasswordAuth "secret")]) os_Stdout None.

End sshexec.

(** ** Package scheduler: statuses, and the checks of the scheduler tests *)

Module scheduler.

Inductive NodeStatus : Type :=
| NodeStatusNone
| NodeStatusRunning
| NodeStatusError
| NodeStatusCancel
| NodeStatusSuccess
| NodeStatusSkipped.

Inductive Status : Type :=
| StatusNone
| StatusRunning
| StatusError
| StatusCancel
| StatusSuccess.

#[global] Instance NodeStatus_eq_dec : EqDecision NodeStatus.
Proof. solve_decision. Defined.

#[global] Instance Status_eq_dec : EqDecision Status.
Proof. solve_decision. Defined.

(** The checks that the test helper [graphHelper.Schedule] makes on the
    error [Schedule] returned and on the status found afterwards:
    [require.NoError] for Success and Cancel, [require.Error] for Error,
    a test failure for Running and None, and the equality of the expected
    and the found status.  [Scheduler.Schedule] and [Scheduler.Status]
    themselves are not in the source tree. *)
Definition graphHelper_Schedule (expectedStatus : Status) (err : option error)
  (found : Status) : bool :=
  match expectedStatus with
  | StatusSuccess | StatusCancel => bool_decide (err = None)
  | StatusError => bool_decide (err <> None)
  | StatusRunning | StatusNone => false
  end && bool_decide (expectedStatus = found).

End scheduler.

(** ** Package engine: starting a DAG *)

Module engine.

(** A Go string as the runes that a [range] loop over it yields, and
    that [WriteRune] writes back.  A byte that is not part of a valid
    encoding is read as U+FFFD and written back as the encoding of that
    rune, so only for valid UTF-8 do the runes tell the bytes. *)
Definition rune : Type := Z.
Definition runes : Type := list rune.

Definition CR : rune := 13.         (* carriage return *)
Definition LF : rune := 10.         (* line feed *)
Definition QUOTE : rune := 34.      (* the double quote *)
Definition BACKSLASH : rune := 92.

(** The runes of a literal. *)
Fixpoint literal (s : string) : runes :=
  match s with
  | EmptyString => []
  | String a rest => Z.of_nat (nat_of_ascii a) :: literal rest
  end.

(** [escapeArg]; the two strings written for a line break are a
    backslash and a letter. *)
Fixpoint escapeArg (input : runes) (doubleQuotes : bool) : runes :=
  match input with
  | [] => []
  | char :: rest =>
      (if bool_decide (char = CR) then literal "\r"
       else if bool_decide (char = LF) then literal "\n"
       else if bool_decide (char = QUOTE) && doubleQuotes then [BACKSLASH; QUOTE]
       else [char])
      ++ escapeArg rest doubleQuotes
  end.

(** A command made by [exec.Command]. *)
Record Cmd : Type := mkCmd {
  Path : runes;
  Args : list runes;
  Dir : runes
}.

Inductive Event : Type :=
| EvStart (cmd : Cmd)
| EvWait (cmd : Cmd).

Record engineImpl : Type := mkEngine {
  executable : runes;
  workDir : runes
}.

Section Engine.

(** [cmd.Start()] and [cmd.Wait()]. *)
Variable cmd_Start : Cmd -> option error.
Variable cmd_Wait : Cmd -> option error.

(** The arguments that [Start] builds. *)
Definition Start_args (location params : runes) : list runes :=
  let args := [literal "start"] in
  let args :=
    if negb (bool_decide (params = [])) then
      (args ++ [literal "-p"]) ++ [[QUOTE] ++ escapeArg params false ++ [QUOTE]]
    else args in
  args ++ [location].

(** [engineImpl.Start]; [location] is [dg.Location]. *)
Definition Start (e : engineImpl) (location params : runes) (w : list Event)
  : option error * list Event :=
  let cmd := mkCmd (executable e) (Start_args location params) (workDir e) in
  let w1 := w ++ [EvStart cmd] in
  match cmd_Start cmd with
  | Some err => (Some err, w1)
  | None => (cmd_Wait cmd, w1 ++ [EvWait cmd])
  end.

End Engine.

(** How many times a rune is in a string. *)
Definition count (r : rune) (s : list rune) : nat :=
  length (filter (fun c => c = r) s).

End engine.

(** ** Package jsondb: the latest status files *)

Module jsondb.

Inductive Outcome (A : Type) : Type :=
| Returned (a : A)
| Panicked.
Arguments Returned {A} a.
Arguments Panicked {A}.

Section Files.

(** [rTimestamp.FindString]. *)
Variable timestamp : string -> string.

(** What [sort.Slice] leaves in the slice, for a comparison. *)
Variable sort_Slice : (string -> string -> bool) -> list string -> list string.

(** [filepath.Glob]. *)
Variable filepath_Glob : string -> list string * option error.

(** [store.prefixWithDirectory] and [day.Format("20060102")]. *)
Variable prefixWithDirectory : string -> string.
Variable day_Format : string.

(** [persistence.ErrNoStatusDataToday] and [persistence.ErrNoStatusData]. *)
Variable ErrNoStatusDataToday : error.
Variable ErrNoStatusData : error.

(** The largest capacity of a slice of strings that [make] accepts. *)
Variable maxCap : Z.

(** The comparison of [filterLatest]: [timestamp(files[i]) > timestamp(files[j])]. *)
Definition later (a b : string) : bool := String.ltb (timestamp b) (timestamp a).

(** What [sort.Slice] promises for the files: the same files, and no
    file has a later timestamp than a file before it. *)
Definition sorted_latest_first (files : list string) : Prop :=
  files ≡ₚ sort_Slice later files /\
  StronglySorted (fun a b => later b a = false) (sort_Slice later files).

(** The loop of [filterLatest]: [i < n && i < len(files)]. *)
Fixpoint first_files (n : nat) (files : list string) : list string :=
  match n, files with
  | S n, f :: rest => f :: first_files n rest
  | _, _ => []
  end.

(** [filterLatest]; [make] panics when the capacity is negative or out
    of range. *)
Definition filterLatest (files : list string) (n : Z) : Outcome (list string) :=
  if bool_decide (length files = 0%nat) then Returned []
  else
    let files := sort_Slice later files in
    if (n <? 0) || (maxCap <? n) then Panicked
    else Returned (first_files (Z.to_nat n) files).

(** The pattern of [latestToday]. *)
Definition today_pattern (dagFile : string) (latestStatusToday : bool) : string :=
  if latestStatusToday
  then prefixWithDirectory dagFile +:+ "." +:+ day_Format +:+ "*.*.dat"
  else prefixWithDirectory dagFile +:+ ".*.*.dat".

(** [JSONDB.latestToday]. *)
Definition latestToday (dagFile : string) (latestStatusToday : bool)
  : Outcome (string * option error) :=
  let pattern := today_pattern dagFile latestStatusToday in
  let '(matches, err) := filepath_Glob pattern in
  if bool_decide (err <> None) || bool_decide (length matches = 0%nat)
  then Returned ("", Some ErrNoStatusDataToday)
  else
    match filterLatest matches 1 with
    | Panicked => Panicked
    | Returned ret =>
        match ret with
        | [] => Returned ("", Some ErrNoStatusData)
        | first :: _ => Returned (first, err)
        end
    end.

(** [JSONDB.latest]. *)
Definition latest (pattern : string) (n : Z) : Outcome (list string) :=
  let '(matches, err) := filepath_Glob pattern in
  if bool_decide (err = None) || bool_decide (0 <= Z.of_nat (length matches))
  then filterLatest matches n
  else Returned [].

End Files.

(** A sort for lists of at most two files, and two status files. *)
Definition sort_two (less : string -> string -> bool) (files : list string) : list string :=
  match files with
  | [a; b] => if less b a then [b; a] else [a; b]
  | _ => files
  end.

Definition file_ts (file : string) : string := String.substring 2 17 file.

Definition older_file : string := "a.20240101.10:00:00.000.x.dat".
Definition newer_file : string := "a.20240102.09:30:00.000.y.dat".

End jsondb.

(** ** Package reporter: mails about a run *)

Module reporter.

Inductive Outcome : Type :=
| Returned (err : option error)
| Panicked.

Record MailOn : Type := mkMailOn {
  Failure : bool;
  Success : bool
}.

Record MailConfig : Type := mkMailConfig {
  From : string;
  To : string;
  Prefix : string;
  AttachLogs : bool
}.

(** The fields of [dag.Step] and [dag.DAG] that the reporter reads;
    [MailOn], [ErrorMail] and [InfoMail] are pointers. *)
Record Step : Type := mkStep {
  Step_Name : string;
  MailOnError : bool
}.

Record DAG : Type := mkDAG {
  Name : string;
  DAG_MailOn : option MailOn;
  ErrorMail : option MailConfig;
  InfoMail : option MailConfig
}.

(** [model.Node] and [model.Status], with the fields read here. *)
Record Node : Type := mkNode {
  Node_Name : string;
  Node_Status : scheduler.NodeStatus;
  Log : string
}.

Record Status : Type := mkStatus {
  Status_ : scheduler.Status;
  StatusText : string;
  Nodes : list Node
}.

(** The arguments of a call of [Mailer.SendMail]. *)
Record Mail : Type := mkMail {
  from : string;
  to : list string;
  subject : string;
  body : string;
  attachments : list string
}.

Inductive Event : Type :=
| EvLog (line : string)
| EvMail (m : Mail).

(** [addAttachmentList]. *)
Definition addAttachmentList (trigger : bool) (nodes : list Node) : list string :=
  if trigger then foldl (fun attachments n => attachments ++ [Log n]) [] nodes
  else [].

Section Reporter.

(** The method [String] of [scheduler.Status], [renderHTML], and the
    mailer of the reporter. *)
Variable Status_String : scheduler.Status -> string.
Variable renderHTML : list Node -> string.
Variable Mailer_SendMail : Mail -> option error.

(** The mail that [ReportStep] and [SendMail] build from a mail
    configuration. *)
Definition report_mail (cfg : MailConfig) (dg : DAG) (status : Status) : Mail :=
  mkMail (From cfg) [To cfg]
         (Prefix cfg +:+ " " +:+ Name dg +:+ " (" +:+ Status_String (Status_ status) +:+ ")")
         (renderHTML (Nodes status))
         (addAttachmentList (AttachLogs cfg) (Nodes status)).

(** [Reporter.ReportStep]; [st] is [node.State().Status] and [step] is
    [node.Data().Step]. *)
Definition ReportStep (dg : DAG) (status : Status) (st : scheduler.NodeStatus)
    (step : Step) (w : list Event) : Outcome * list Event :=
  let w1 :=
    if negb (bool_decide (st = scheduler.NodeStatusNone))
    then w ++ [EvLog (Step_Name step +:+ " " +:+ StatusText status)]
    else w in
  if bool_decide (st = scheduler.NodeStatusError) && MailOnError step then
    match ErrorMail dg with
    | None => (Panicked, w1)
    | Some cfg =>
        let m := report_mail cfg dg status in
        (Returned (Mailer_SendMail m), w1 ++ [EvMail m])
    end
  else (Returned None, w1).

(** [Reporter.SendMail]. *)
Definition SendMail (dg : DAG) (status : Status) (err : option error) (w : list Event)
  : Outcome * list Event :=
  if bool_decide (err <> None) || bool_decide (Status_ status = scheduler.StatusError) then
    if match DAG_MailOn dg with Some on => Failure on | None => false end then
      match ErrorMail dg with
      | None => (Panicked, w)
      | Some cfg =>
          let m := report_mail cfg dg status in
          (Returned (Mailer_SendMail m), w ++ [EvMail m])
      end
    else (Returned None, w)
  else if bool_decide (Status_ status = scheduler.StatusSuccess) then
    if match DAG_MailOn dg with Some on => Success on | None => false end then
      match InfoMail dg with
      | None => (Panicked, w)
      | Some cfg =>
          let m := report_mail cfg dg status in
          let _ := Mailer_SendMail m in
          (Returned None, w ++ [EvMail m])
      end
    else (Returned None, w)
  else (Returned None, w).

End Reporter.

(** The mails of a trace. *)
Definition mails (w : list Event) : list Mail :=
  omap (fun ev => match ev with EvMail m => Some m | EvLog _ => None end) w.

(** A DAG that mails on failure and on success, and a mailer that
    fails. *)
Definition mailing_DAG : DAG :=
  mkDAG "test DAG" (Some (mkMailOn true true))
        (Some (mkMailConfig "from@mailer.com" "to@mailer.com" "Error: " true))
        (Some (mkMailConfig "from@mailer.com" "to@mailer.com" "Success: " false)).

Definition status_text (s : scheduler.Status) : string :=
  match s with
  | scheduler.StatusNone => "not started"
  | scheduler.StatusRunning => "running"
  | scheduler.StatusError => "failed"
  | scheduler.StatusCancel => "canceled"
  | scheduler.StatusSuccess => "finished"
  end.

Definition failing_Mailer (m : Mail) : option error := Some (errorString "smtp down").

End reporter.

(** * Properties *)

(** ** Preconditions *)

Module digraph_facts.
Import digraph.

Section Eval.

Context {World : Type}.
Variable StepContext_EvalString : string -> World -> (string * option error) * World.
Variable Context_EvalString : string -> World -> (string * option error) * World.
Variable cmdutil_EvalString : string -> World -> (string * option error) * World.
Variable shell : string.
Variable exec_Output : list string -> World -> option error * World.

Abbreviation eval :=
  (Condition_eval StepContext_EvalString Context_EvalString cmdutil_EvalString
                  shell exec_Output).
Abbreviation evalCond :=
  (evalCondition StepContext_EvalString Context_EvalString cmdutil_EvalString
                 shell exec_Output).
Abbreviation EvalConds :=
  (EvalConditions StepContext_EvalString Context_EvalString cmdutil_EvalString
                  shell exec_Output).
Abbreviation met :=
  (Met StepContext_EvalString Context_EvalString cmdutil_EvalString shell exec_Output).
Abbreviation allMet :=
  (AllMet StepContext_EvalString Context_EvalString cmdutil_EvalString shell exec_Output).
Abbreviation mismatch :=
  (Mismatch StepContext_EvalString Context_EvalString cmdutil_EvalString shell exec_Output).
Abbreviation failedWith :=
  (FailedWith StepContext_EvalString Context_EvalString cmdutil_EvalString
              shell exec_Output).

Lemma wraps_sentinel msg : errors_Is (Errorf_w msg ErrConditionNotMet) ErrConditionNotMet = true.
Proof. reflexivity. Qed.

Lemma plain_does_not_wrap msg : errors_Is (Errorf msg) ErrConditionNotMet = false.
Proof. reflexivity. Qed.

(** [evalCondition] returns nil exactly when the condition is met. *)
Lemma evalCondition_nil ctx c w w' :
  evalCond ctx c w = (None, w') <-> met ctx c w w'.
Proof.
  unfold evalCondition, Met.
  destruct (eval c ctx w) as [[matched [err|]] w1]; simpl.
  - destruct (errors_Is err ErrConditionNotMet); split; intros H; congruence.
  - destruct matched; simpl; split; intros H; congruence.
Qed.

(** The error of [evalCondition] wraps the sentinel exactly when the
    evaluation reported a mismatch or failed with an error that wraps it. *)
Lemma evalCondition_error ctx c w e w' :
  evalCond ctx c w = (Some e, w') ->
  (errors_Is e ErrConditionNotMet = true <->
   mismatch ctx c w \/
   exists e0, failedWith ctx c w e0 /\ errors_Is e0 ErrConditionNotMet = true).
Proof.
  unfold evalCondition, Mismatch, FailedWith.
  destruct (eval c ctx w) as [[matched [err|]] w1]; simpl.
  - destruct (errors_Is err ErrConditionNotMet) eqn:His; intros [= <- <-].
    + split; [intros _; right; eauto | done].
    + rewrite plain_does_not_wrap. split; [done |].
      intros [? | (e0 & [= <-] & ?)]; congruence.
  - destruct matched; simpl; intros [= <- <-].
    rewrite wraps_sentinel. split; [by left | done].
Qed.

Lemma EvalConditions_app_met ctx pre rest w w1 :
  allMet ctx pre w w1 -> EvalConds ctx (pre ++ rest) w = EvalConds ctx rest w1.
Proof.
  induction 1 as [|c cs w w1 w2 Hc _ IH]; [done |].
  simpl. apply evalCondition_nil in Hc. by rewrite Hc.
Qed.

Lemma EvalConditions_nil_iff ctx conds w w' :
  EvalConds ctx conds w = (None, w') <-> allMet ctx conds w w'.
Proof.
  revert w. induction conds as [|c cs IH]; intros w; simpl.
  - split; [intros [= <-]; constructor | by inversion 1].
  - destruct (evalCond ctx c w) as [[e|] w1] eqn:Hc.
    + split; [done |]. inversion 1; subst.
      match goal with H : met _ _ _ _ |- _ => apply evalCondition_nil in H end.
      congruence.
    + rewrite IH. apply evalCondition_nil in Hc. split.
      * intros H. by econstructor.
      * inversion 1; subst. unfold Met in *. congruence.
Qed.

Lemma EvalConditions_error_split ctx conds w e w' :
  EvalConds ctx conds w = (Some e, w') ->
  exists pre c post w1,
    conds = pre ++ c :: post /\ allMet ctx pre w w1 /\ evalCond ctx c w1 = (Some e, w').
Proof.
  revert w. induction conds as [|c cs IH]; intros w; simpl; [done |].
  destruct (evalCond ctx c w) as [[e1|] w1] eqn:Hc.
  - intros [= <- <-]. exists [], c, cs, w. split_and!; [done | constructor | done].
  - intros H. destruct (IH _ H) as (pre & c' & post & w2 & -> & Hpre & Hc').
    exists (c :: pre), c', post, w2. split_and!; [done | | done].
    econstructor; [by apply evalCondition_nil | done].
Qed.

(** C1 (as amended): [EvalConditions] evaluates the conditions in
    declared order and stops at the first one that is not met: the
    conditions before it are all met, its error is returned whatever
    follows it in the list, and the world is the one its evaluation left,
    so nothing after it is evaluated.  The error wraps
    [ErrConditionNotMet] exactly when the evaluation reported a mismatch
    or failed with an error that itself wraps the sentinel; when the
    evaluation failed otherwise the error is a plain "failed to evaluate
    condition" error.  [EvalConditions] returns nil if and only if every
    condition of the list is met. *)
Theorem EvalConditions_first_unmet ctx (conds : list Condition) (w : World) :
  (forall w', EvalConds ctx conds w = (None, w') <-> allMet ctx conds w w') /\
  (forall e w',
     EvalConds ctx conds w = (Some e, w') ->
     exists pre c post w1,
       conds = pre ++ c :: post /\
       allMet ctx pre w w1 /\
       ~ met ctx c w1 w' /\
       evalCond ctx c w1 = (Some e, w') /\
       (forall post', EvalConds ctx (pre ++ c :: post') w = (Some e, w')) /\
       (errors_Is e ErrConditionNotMet = true <->
        mismatch ctx c w1 \/
        exists e0, failedWith ctx c w1 e0 /\ errors_Is e0 ErrConditionNotMet = true)).
Proof.
  split; [intros w'; apply EvalConditions_nil_iff |].
  intros e w' H.
  destruct (EvalConditions_error_split _ _ _ _ _ H) as (pre & c & post & w1 & -> & Hpre & Hc).
  exists pre, c, post, w1. split_and!; try done.
  - intros Hm. apply evalCondition_nil in Hm. congruence.
  - intros post'. rewrite (EvalConditions_app_met _ _ _ _ _ Hpre). simpl. by rewrite Hc.
  - by apply (evalCondition_error _ _ _ _ _ Hc).
Qed.

End Eval.

(** C1 (counterexample): a list whose first condition has neither
    [Condition] nor [Command] and whose second condition is a mismatch.
    Neither is met and [EvalConditions] returns an error, but the error
    is the one of the failed evaluation of the first condition, and it
    does not wrap [ErrConditionNotMet]. *)
Lemma EvalConditions_invalid_condition_not_sentinel :
  exists e,
    quiet_EvalConditions StepCtx [mkCondition "" "" ""; mkCondition "" "a" "b"] []
    = (Some e, []) /\
    errors_Is e ErrConditionNotMet = false.
Proof. eexists. split; reflexivity. Qed.

Example EvalConditions_stops_at_mismatch :
  quiet_EvalConditions StepCtx
    [mkCondition "first" "" ""; mkCondition "" "a" "b"; mkCondition "third" "" ""] []
  = (Some (Errorf_w "condition was not met: Condition=a Expected=b" ErrConditionNotMet),
     [["sh"; "-c"; "first"]]).
Proof. reflexivity. Qed.

End digraph_facts.

(** ** The socket frontend *)

Module sock_facts.
Import sock.

Section Frontend.

Variable listen_fails : string -> option error.
Variable close_fails : string -> option error.

#[local] Arguments Listener_Close : simpl never.
#[local] Arguments Shutdown : simpl never.
#[local] Arguments os_Remove : simpl never.
#[local] Arguments net_Listen : simpl never.
#[local] Arguments Serve_deferred : simpl never.
#[local] Arguments after_Accept : simpl never.
#[local] Arguments Accept : simpl never.

Abbreviation shutdown := (Shutdown close_fails).
Abbreviation serve_loop := (Serve_loop close_fails).
Abbreviation serve := (Serve listen_fails close_fails).
Abbreviation deferred := (Serve_deferred close_fails).

(** *** Traces only grow *)

Lemma extends_refl w : extends w w.
Proof. exists []. by rewrite app_nil_r. Qed.


Lemma extends_log e w : extends w (log e w).
Proof. by exists [e]. Qed.

Lemma Listener_Close_trace l w :
  trace (Listener_Close close_fails l w).2
  = trace w ++ [EvClose (path l) (Listener_Close close_fails l w).1.1].
Proof. unfold Listener_Close. simpl. by destruct (_ && _). Qed.

Lemma Shutdown_extends srv w : extends w (shutdown srv w).2.
Proof.
  unfold Shutdown. destruct (quit srv); cbn; [apply extends_refl |].
  destruct (listener srv) as [l|]; [| apply extends_refl].
  pose proof (Listener_Close_trace l w) as Ht.
  destruct (Listener_Close close_fails l w) as [[err l1] w1]. cbn in *.
  destruct err as [e|]; [destruct (errors_Is e os_ErrClosed); cbn |].
  - eexists. exact Ht.
  - eexists. cbn. rewrite Ht, <- app_assoc. done.
  - eexists. exact Ht.
Qed.

Lemma os_Remove_extends p w : extends w (os_Remove p w).2.
Proof.
  unfold os_Remove. destruct (fs w !! p) as [[| |[|]]|]; simpl; by eexists.
Qed.


Lemma after_Accept_extends a srv w : extends w (after_Accept a srv w).2.
Proof.
  unfold after_Accept. destruct (quit srv); [apply extends_refl |].
  destruct a; [apply extends_log | apply extends_refl].
Qed.

Lemma Accept_extends o srv w : extends w (Accept close_fails o srv w).2.
Proof.
  unfold Accept. pose proof (Shutdown_extends srv w) as Hs.
  destruct o as [a|a|]; [apply extends_refl | |];
    destruct (shutdown srv w) as [[err srv1] w1]; cbn in *; [done |].
  destruct (listener srv1) as [l|]; [destruct (closed l) |]; done.
Qed.


(** The loop run on [pre ++ post] is the loop run on [pre] and, when
    that is blocked, continued on [post]. *)
Lemma Serve_loop_app pre post srv w :
  serve_loop (pre ++ post) srv w =
  match serve_loop pre srv w with
  | (Blocked, srv1, w1) => serve_loop post srv1 w1
  | r => r
  end.
Proof.
  revert srv w. induction pre as [|o pre IH]; intros srv w; [done |].
  cbn [app Serve_loop].
  destruct (Accept close_fails o srv w) as [[[a|] srv1] w1]; [| apply IH].
  destruct (after_Accept a srv1 w1) as [[err|] w2]; [| apply IH].
  by destruct (deferred srv1 w2).
Qed.

(** *** The socket file *)



Lemma Shutdown_quit srv w : quit srv = true -> shutdown srv w = (None, srv, w).
Proof. unfold Shutdown. by intros ->. Qed.

Lemma Shutdown_sets_quit srv w : quit (shutdown srv w).1.2 = true.
Proof.
  unfold Shutdown. destruct (quit srv) eqn:Eq; cbn; [done |].
  destruct (listener srv); [| done].
  by destruct (Listener_Close close_fails _ w) as [[? ?] ?].
Qed.


Lemma after_Accept_returns a srv w e w' :
  after_Accept a srv w = (Some e, w') ->
  e = ErrServerRequestedShutdown /\ quit srv = true /\ w' = w.
Proof.
  unfold after_Accept. destruct (quit srv); [by intros [= <- <-] |].
  by destruct a.
Qed.




(** [net.Listen] gives a listener or an error, never both. *)
Lemma net_Listen_cases p w :
  (exists err, (net_Listen listen_fails p w).1 = (None, Some err)) \/
  ((net_Listen listen_fails p w).1 = (Some (mkListener p true false false), None) /\
   (is_abstract p = false ->
    fs w !! p = None /\ fs (net_Listen listen_fails p w).2 !! p = Some SocketFile)).
Proof.
  unfold net_Listen. destruct (listen_fails p); [by left; eexists |].
  destruct (is_abstract p); [by right |].
  destruct (fs w !! p) eqn:E; [by left; eexists |].
  right. cbn. split; [done |]. intros _. split; [done |]. apply lookup_insert_eq.
Qed.



(** *** Shutdown *)

Lemma closes_app t1 t2 : closes (t1 ++ t2) = (closes t1 + closes t2)%nat.
Proof. unfold closes. by rewrite List.filter_app, length_app. Qed.

Lemma Shutdown_closes srv w :
  (closes (trace (shutdown srv w).2) <= closes (trace w) + 1)%nat.
Proof.
  unfold Shutdown. destruct (quit srv); cbn; [lia |].
  destruct (listener srv) as [l|]; cbn; [| lia].
  pose proof (Listener_Close_trace l w) as Ht.
  destruct (Listener_Close close_fails l w) as [[err l1] w1]. cbn in Ht.
  destruct err as [e|]; [destruct (errors_Is e os_ErrClosed) |];
    cbn [snd negb trace log]; rewrite Ht, !closes_app; cbn; lia.
Qed.

(** C3: [Shutdown] is idempotent.  After a first call, a second call
    returns nil and leaves the server and the world as they were, and so
    does every later call; the two calls together close the listener at
    most once. *)
Theorem Shutdown_idempotent srv w :
  let first := shutdown srv w in
  let second := shutdown first.1.2 first.2 in
  second = (None, first.1.2, first.2) /\
  (forall n,
     Nat.iter n (fun s => ((shutdown s.1 s.2).1.2, (shutdown s.1 s.2).2))
              (first.1.2, first.2) = (first.1.2, first.2)) /\
  (closes (trace second.2) <= closes (trace w) + 1)%nat.
Proof.
  cbv zeta.
  assert (Hagain : shutdown (shutdown srv w).1.2 (shutdown srv w).2
                   = (None, (shutdown srv w).1.2, (shutdown srv w).2)).
  { apply Shutdown_quit, Shutdown_sets_quit. }
  split_and!.
  - exact Hagain.
  - induction n as [|n IH]; [done |]. rewrite Nat.iter_succ, IH. cbn [fst snd].
    by rewrite Hagain.
  - rewrite Hagain. cbn [snd]. apply Shutdown_closes.
Qed.

(** *** The accept loop *)

(** C4 (as amended): in the accept loop of [Serve], an accept attempt
    that completes when [Shutdown] has set the [quit] flag makes [Serve]
    return [ErrServerRequestedShutdown]: when the flag was already set,
    when [Shutdown] runs between the return of [Accept] and the reading
    of the flag, and when [Shutdown] closes the listener under a blocked
    [Accept].  An accept error that occurs while the flag is not set is
    dropped: the server and the world, trace included, stay as they were,
    so nothing is logged, and the loop goes on accepting instead of
    returning. *)
Theorem Serve_loop_accept pre srv w srv1 w1 :
  serve_loop pre srv w = (Blocked, srv1, w1) ->
  (quit srv1 = true -> forall a post,
     (serve_loop (pre ++ Arrives a :: post) srv w).1.1
     = Returned ErrServerRequestedShutdown) /\
  (forall a post,
     (serve_loop (pre ++ ArrivesThenShutdown a :: post) srv w).1.1
     = Returned ErrServerRequestedShutdown) /\
  (forall l post, quit srv1 = false -> listener srv1 = Some l ->
     (serve_loop (pre ++ ShutdownWhileBlocked :: post) srv w).1.1
     = Returned ErrServerRequestedShutdown) /\
  (quit srv1 = false -> forall e post,
     serve_loop (pre ++ Arrives (GotError e) :: post) srv w
     = serve_loop (pre ++ post) srv w).
Proof.
  intros Hpre. split_and!.
  - intros Hq a post. rewrite Serve_loop_app, Hpre. cbn [Serve_loop].
    unfold Accept, after_Accept. rewrite Hq.
    by destruct (deferred srv1 w1).
  - intros a post. rewrite Serve_loop_app, Hpre. cbn [Serve_loop].
    unfold Accept. pose proof (Shutdown_sets_quit srv1 w1) as Hq.
    destruct (shutdown srv1 w1) as [[err s2] w2]. cbn in Hq.
    unfold after_Accept. rewrite Hq. by destruct (deferred s2 w2).
  - intros l post Hq Hl. rewrite Serve_loop_app, Hpre. cbn [Serve_loop].
    unfold Accept, Shutdown. rewrite Hq. cbn. rewrite Hl.
    unfold Listener_Close. cbn. unfold after_Accept. cbn.
    by destruct (Serve_deferred _ _ _).
  - intros Hq e post. rewrite !Serve_loop_app, Hpre. cbn [Serve_loop].
    unfold Accept, after_Accept. rewrite Hq.
    by destruct (listener srv1) as [l|]; cbn; [destruct (closed l) |].
Qed.

(** *** Starting *)

Lemma Shutdown_keeps_listener srv w :
  is_Some (listener srv) -> is_Some (listener (shutdown srv w).1.2).
Proof.
  intros Hs. unfold Shutdown. destruct (quit srv); cbn; [done |].
  destruct (listener srv); [| done].
  by destruct (Listener_Close close_fails _ w) as [[? ?] ?].
Qed.

Lemma Accept_keeps_listener o srv w :
  is_Some (listener srv) -> is_Some (listener (Accept close_fails o srv w).1.2).
Proof.
  intros Hs. unfold Accept. destruct o; [done | |];
    pose proof (Shutdown_keeps_listener srv w Hs) as H';
    destruct (shutdown srv w) as [[? s1] ?]; cbn in *; [done |].
  destruct (listener s1) as [l|] eqn:E; [destruct (closed l) |]; cbn; by rewrite E.
Qed.

Lemma Serve_loop_keeps_listener occ srv w :
  is_Some (listener srv) -> is_Some (listener (serve_loop occ srv w).1.2).
Proof.
  revert srv w. induction occ as [|o rest IH]; intros srv w Hs; [done |].
  cbn [Serve_loop].
  pose proof (Accept_keeps_listener o srv w Hs) as HA.
  destruct (Accept close_fails o srv w) as [[[x|] s1] w1]; cbn in HA; [| by apply IH].
  destruct (after_Accept x s1 w1) as [[err|] w2]; [| by apply IH].
  pose proof (Shutdown_keeps_listener s1 w2 HA) as H'. unfold Serve_deferred.
  destruct (shutdown s1 w2) as [[? s2] w3]. cbn in H'.
  by destruct (os_Remove (addr s2) w3).
Qed.


(** *** What [Serve] does to the file system *)










(** *** Writing a response *)

(** C10: [httpResponseWriter.Write] returns the byte count 0 and a nil
    error for every byte slice, whether or not the response reached the
    connection: the world it leaves is the one [response.Write] left, and
    the error of [response.Write] is dropped. *)
Theorem Write_returns_zero_nil hw (data : list Byte.byte) (w : World) :
  (Write hw data w).1 = (0, None) /\
  (Write hw data w).2
  = (Response_Write
       (mkResponse (statusCode hw) 1 0 (String.string_of_list_byte data) (header hw))
       (conn hw) w).2 /\
  match conns w !! conn hw with
  | None =>
      (Response_Write
         (mkResponse (statusCode hw) 1 0 (String.string_of_list_byte data) (header hw))
         (conn hw) w).1 = Some net_ErrClosed
  | Some got =>
      conns (Write hw data w).2 !! conn hw
      = Some (got ++ [mkResponse (statusCode hw) 1 0
                                 (String.string_of_list_byte data) (header hw)])
  end.
Proof.
  unfold Write, Response_Write.
  destruct (conns w !! conn hw) as [got|]; cbn; split_and!; try done.
  apply lookup_insert_eq.
Qed.

End Frontend.



Lemma Serve_loop_accept_witness :
  Serve_loop no_fault [Arrives (GotConn 1%nat); Arrives (GotError EMFILE);
                       Arrives (GotConn 2%nat)] bound_Server bound_World
  = Serve_loop no_fault [Arrives (GotConn 1%nat); Arrives (GotConn 2%nat)]
               bound_Server bound_World.
Proof.
  refine (proj2 (proj2 (proj2
            (Serve_loop_accept no_fault [Arrives (GotConn 1%nat)]
               bound_Server bound_World bound_Server
               (log (EvHandle 1%nat) bound_World) _)))
            _ EMFILE [Arrives (GotConn 2%nat)]).
  - vm_compute. reflexivity.
  - reflexivity.
Defined.

(** C4 (counterexample): an accept error arrives while [quit] is not
    set; the loop goes on (it is blocked in the next [Accept]) and the
    trace has no entry of [logger.Error]: the error is not logged. *)
Lemma Serve_accept_error_not_logged :
  let r := Serve no_fault no_fault true [Arrives (GotError EMFILE)]
                 (NewServer sock_path).1 empty_World in
  r.1.1 = Blocked /\ quit r.1.2 = false /\
  trace r.2 = [EvRemove sock_path (Some ENOENT); EvListen sock_path None;
               EvSend None; EvDebug "Unix socket is listening"] /\
  existsb is_error_log (trace r.2) = false.
Proof. vm_compute. done. Qed.



(** A client connects, then [Shutdown] closes the listener under the
    blocked [Accept]: [Serve] returns the sentinel, the listener was
    closed once and the socket file is gone. *)
Example Serve_until_Shutdown :
  let r := Serve no_fault no_fault true [Arrives (GotConn 1%nat); ShutdownWhileBlocked]
                 (NewServer sock_path).1 stale_World in
  r.1.1 = Returned ErrServerRequestedShutdown /\
  trace r.2 = [EvRemove sock_path None; EvListen sock_path None; EvSend None;
               EvDebug "Unix socket is listening"; EvHandle 1%nat;
               EvClose sock_path None; EvRemove sock_path (Some ENOENT)] /\
  fs r.2 !! sock_path = None.
Proof. vm_compute. done. Qed.

(** A response written to a connection that is gone: the write fails and
    [Write] still returns 0 and nil. *)
Example Write_on_closed_connection :
  Response_Write (mkResponse 200 1 0 "OK" []) 7%nat empty_World
  = (Some net_ErrClosed, log (EvRespond 7%nat (Some net_ErrClosed)) empty_World) /\
  (Write (newHTTPResponseWriter 7%nat) [Byte.x4f; Byte.x4b] empty_World).1 = (0, None).
Proof. split; reflexivity. Qed.

End sock_facts.

(** ** The docker executor *)

Module executor_facts.
Import executor.

Section Docker.

Variable dk : Daemon.

(** *** Writers *)

Lemma written_write_same out s w : written out (write out s w) = written out w ++ [s].
Proof. unfold written, write. cbn. by rewrite lookup_insert_eq. Qed.

Lemma written_write_other out out' s w :
  out' <> out -> written out' (write out s w) = written out' w.
Proof. intros Hne. unfold written, write. cbn. by rewrite lookup_insert_ne. Qed.

Lemma write_ctxs out s w : ctxs (write out s w) = ctxs w.
Proof. done. Qed.

(** [StdCopy] with one writer for both streams gives it every payload. *)
Lemma StdCopy_same_writer out src w :
  written out (StdCopy out out src w).2 = written out w ++ payloads src /\
  (forall out', out' <> out -> written out' (StdCopy out out src w).2 = written out' w) /\
  ctxs (StdCopy out out src w).2 = ctxs w.
Proof.
  revert w. induction src as [|[[| | |] s] rest IH]; intros w; cbn [StdCopy payloads].
  - by rewrite app_nil_r.
  - destruct (IH (write out s w)) as (H1 & H2 & H3). split_and!.
    + by rewrite H1, written_write_same, <- app_assoc.
    + intros out' Hne. by rewrite H2, written_write_other.
    + by rewrite H3.
  - destruct (IH (write out s w)) as (H1 & H2 & H3). split_and!.
    + by rewrite H1, written_write_same, <- app_assoc.
    + intros out' Hne. by rewrite H2, written_write_other.
    + by rewrite H3.
  - destruct (IH (write out s w)) as (H1 & H2 & H3). split_and!.
    + by rewrite H1, written_write_same, <- app_assoc.
    + intros out' Hne. by rewrite H2, written_write_other.
    + by rewrite H3.
  - by rewrite app_nil_r.
Qed.

Lemma attachAndWait_outputs e id w :
  outputs (attachAndWait dk e id w).2
  = match (ContainerLogs dk id).2 with
    | None => outputs (StdCopy (stdout e) (stdout e) (ContainerLogs dk id).1 w).2
    | Some _ => outputs w
    end.
Proof.
  unfold attachAndWait. destruct (ContainerLogs dk id) as [out [err|]]; cbn; [done |].
  destruct (StdCopy (stdout e) (stdout e) out w) as [[cerr|] w1]; cbn;
    destruct (ContainerWait dk id) as [[?|]|code|]; cbn; try done;
    by destruct (bool_decide (code = 0)).
Qed.

(** C9: [SetStderr] stores its writer in the field [SetStdout] uses.
    After [SetStdout a] and then [SetStderr b] the executor is the one
    [SetStdout b] alone gives, so the writer [a] is forgotten; and
    [attachAndWait] copies the stdout and the stderr stream of the
    container, frame by frame, to the writer set last, and nothing to any
    other writer. *)
Theorem SetStderr_overwrites_stdout e (a b : Writer) id w :
  SetStderr (SetStdout e a) b = SetStdout e b /\
  stdout (SetStderr (SetStdout e a) b) = b /\
  stdout (SetStdout (SetStderr e a) b) = b /\
  written b (attachAndWait dk (SetStderr (SetStdout e a) b) id w).2
  = written b w ++ match (ContainerLogs dk id).2 with
                   | None => payloads (ContainerLogs dk id).1
                   | Some _ => []
                   end /\
  (forall out, out <> b ->
     written out (attachAndWait dk (SetStderr (SetStdout e a) b) id w).2 = written out w).
Proof.
  split_and!; try done.
  - unfold written at 1. rewrite attachAndWait_outputs. cbn [stdout SetStderr SetStdout].
    destruct (ContainerLogs dk id) as [out [err|]]; cbn [fst snd].
    + by rewrite app_nil_r.
    + apply (StdCopy_same_writer b out w).
  - intros out Hne. unfold written at 1. rewrite attachAndWait_outputs.
    cbn [stdout SetStderr SetStdout].
    destruct (ContainerLogs dk id) as [fr [err|]]; cbn [fst snd]; [done |].
    by apply (StdCopy_same_writer b fr w).
Qed.

(** *** Kill *)

#[local] Arguments set_ctxs : simpl never.
#[local] Arguments removeContainer : simpl never.

Lemma removeContainer_done e removing id w :
  negb (autoRemove e) || default false (cells w !! removing) = true ->
  removeContainer dk e removing id w = w.
Proof. unfold removeContainer. by intros ->. Qed.

Lemma removeContainer_marks e removing id w :
  negb (autoRemove e)
  || default false (cells (removeContainer dk e removing id w) !! removing) = true.
Proof.
  unfold removeContainer.
  destruct (negb (autoRemove e) || default false (cells w !! removing)) eqn:E; [done |].
  apply orb_false_iff in E as [-> _]. cbn.
  destruct (ContainerRemove dk id); cbn; by rewrite lookup_insert_eq.
Qed.

Lemma set_ctxs_twice c (b : bool) w :
  set_ctxs (<[c := b]> (ctxs (set_ctxs (<[c := b]> (ctxs w)) w)))
           (set_ctxs (<[c := b]> (ctxs w)) w)
  = set_ctxs (<[c := b]> (ctxs w)) w.
Proof. unfold set_ctxs. cbn. by rewrite insert_insert_eq. Qed.

Lemma cells_set_ctxs c w : cells (set_ctxs c w) = cells w.
Proof. done. Qed.

Lemma Kill_twice e w : Kill dk e (Kill dk e w).2 = (Returned None, (Kill dk e w).2).
Proof.
  unfold Kill. destruct (cancel e) as [[ctx | removing id ctx]|]; cbn; [| | done].
  - by rewrite set_ctxs_twice.
  - rewrite (removeContainer_done e removing id (set_ctxs _ _)).
    + by rewrite set_ctxs_twice.
    + rewrite cells_set_ctxs. apply removeContainer_marks.
Qed.

(** C7: [Kill] is idempotent and always safe.  Every call returns nil
    and none panics, the cancel function being called only when it is not
    nil; before [Run] has installed one, [Kill] does nothing.  A second
    call, and every later one, leaves the world as the first call left
    it: the context stays cancelled and the container is not removed
    again; the executor itself is never written. *)
Theorem Kill_idempotent e w :
  (Kill dk e w).1 = Returned None /\
  Kill dk e (Kill dk e w).2 = (Returned None, (Kill dk e w).2) /\
  (forall n, Nat.iter n (fun w => (Kill dk e w).2) (Kill dk e w).2 = (Kill dk e w).2) /\
  match cancel e with
  | None => Kill dk e w = (Returned None, w)
  | Some _ => True
  end.
Proof.
  split_and!.
  - unfold Kill. by destruct (cancel e) as [[ctx | removing id ctx]|].
  - apply Kill_twice.
  - induction n as [|n IH]; [done |]. by rewrite Nat.iter_succ, IH, Kill_twice.
  - unfold Kill. by destruct (cancel e).
Qed.

(** *** Run *)








Lemma new_Config_eq e :
  containerConfig
    (set_containerConfig
       (if negb (bool_decide (image e = "")) then
          set_containerConfig e (mkConfig (image e) (Cmd (containerConfig e)))
        else e)
       (mkConfig
          (Image (containerConfig
                    (if negb (bool_decide (image e = "")) then
                       set_containerConfig e (mkConfig (image e) (Cmd (containerConfig e)))
                     else e)))
          (Command (step (if negb (bool_decide (image e = "")) then
                            set_containerConfig e
                              (mkConfig (image e) (Cmd (containerConfig e)))
                          else e))
           :: Args (step (if negb (bool_decide (image e = "")) then
                            set_containerConfig e
                              (mkConfig (image e) (Cmd (containerConfig e)))
                          else e)))))
  = new_Config e.
Proof. unfold new_Config. by destruct (negb (bool_decide (image e = ""))). Qed.



End Docker.

Lemma plain_Daemon_sends_errors_only code : sends_errors_only (plain_Daemon code).
Proof. intros id. discriminate. Qed.


Example Run_new_container_exit_zero :
  (Run (plain_Daemon 0) image_docker empty_World).1.1 = Returned None.
Proof. reflexivity. Qed.

Example Run_new_container_exit_three :
  (Run (plain_Daemon 3) image_docker empty_World).1.1
  = Returned (Some (Errorf "exit status 3")).
Proof. vm_compute. reflexivity. Qed.

Example Run_exec_exit_zero :
  (Run (plain_Daemon 0) exec_docker empty_World).1.1 = Returned None.
Proof. reflexivity. Qed.

Example Run_exec_exit_two :
  (Run (plain_Daemon 2) exec_docker empty_World).1.1
  = Returned (Some (Errorf "exec failed with exit code: 2")).
Proof. vm_compute. reflexivity. Qed.

(** Why the contract of the client library is needed: on a nil error
    from the error channel [attachAndWait] falls through to [return nil]
    without an exit status. *)
Example Run_nil_on_nil_wait_error :
  (Run nil_error_Daemon image_docker empty_World).1.1 = Returned None /\
  exit_status nil_error_Daemon image_docker = None.
Proof. split; reflexivity. Qed.

(** [Kill] while the exec is running makes [Run] return the error of
    the context. *)
Example Run_exec_killed :
  (Run (mkDaemon None (fun _ => ("", None)) None (fun _ => ("c1", None))
                 (fun _ => None) (fun _ => None) (fun _ => ([], None))
                 (fun _ => WaitNothing) (fun _ => (true, None))
                 (fun _ _ => ("x1", None)) (fun _ => ([], None))
                 (fun _ => [mkPoll (mkExecInspect true 0) None true]))
       exec_docker empty_World).1.1
  = Returned (Some context_Canceled).
Proof. vm_compute. reflexivity. Qed.

(** Both streams of the container reach the one writer. *)
Example Run_copies_both_streams :
  written os_Stdout (Run (plain_Daemon 0) image_docker empty_World).2
  = ["pulled"; "out"; "err"].
Proof. vm_compute. reflexivity. Qed.

(** [Run] with automatic removal, then [Kill] twice: the container is
    removed once. *)
Example Kill_after_Run_removes_once :
  let r := Run (plain_Daemon 0) image_docker empty_World in
  calls (Kill (plain_Daemon 0) r.1.2 (Kill (plain_Daemon 0) r.1.2 r.2).2).2
  = [CallContainerCreate (mkConfig "alpine:latest" ["echo"; "hello"]);
     CallContainerStart "c1"; CallContainerRemove "c1" None; CallClose].
Proof. vm_compute. reflexivity. Qed.

End executor_facts.

(** ** The scheduler tests *)

Module scheduler_facts.
Import scheduler.

(** A run passes the checks of [graphHelper.Schedule] exactly when the
    status found is the expected one, a status of a run that ended, and
    the error returned is not nil for Error and nil for Success and
    Cancel. *)
Lemma graphHelper_Schedule_passes expectedStatus err found :
  graphHelper_Schedule expectedStatus err found = true <->
  found = expectedStatus /\
  (found = StatusError /\ err <> None \/
   (found = StatusSuccess \/ found = StatusCancel) /\ err = None).
Proof.
  unfold graphHelper_Schedule. rewrite andb_true_iff, bool_decide_eq_true. split.
  - intros [H <-]. split; [done |].
    destruct expectedStatus; try done; apply bool_decide_eq_true in H; auto.
  - intros [-> [[-> H] | [[-> | ->] H]]]; (split; [| done]);
      by apply bool_decide_eq_true.
Qed.

End scheduler_facts.

(** ** More on the socket frontend *)

Module sock_more.
Import sock.

Section Frontend.

Variable listen_fails : string -> option error.
Variable close_fails : string -> option error.

#[local] Arguments Listener_Close : simpl never.
#[local] Arguments Shutdown : simpl never.
#[local] Arguments os_Remove : simpl never.
#[local] Arguments net_Listen : simpl never.
#[local] Arguments Serve_deferred : simpl never.
#[local] Arguments after_Accept : simpl never.
#[local] Arguments Accept : simpl never.

Abbreviation shutdown := (Shutdown close_fails).
Abbreviation serve_loop := (Serve_loop close_fails).
Abbreviation serve := (Serve listen_fails close_fails).

(** What [os.Remove] leaves at the path it is given. *)
Lemma os_Remove_leaves p w :
  fs (os_Remove p w).2 !! p
  = match fs w !! p with
    | Some (Directory false) => Some (Directory false)
    | _ => None
    end.
Proof.
  unfold os_Remove. destruct (fs w !! p) as [[| |[|]]|] eqn:E; cbn;
    by rewrite ?lookup_delete_eq.
Qed.


(** X2: when [net.Listen] fails, [Serve] returns its error at once: the
    error has been sent on the channel when there is one, the listener is
    nil, [quit] is as it was, and since nothing was deferred yet nothing
    is closed and no second removal is tried. *)
Theorem Serve_start_failure listen occ srv w :
  listener (serve listen occ srv w).1.2 = None ->
  exists e r,
    serve listen occ srv w
    = (Returned e, mkServer (addr srv) None (quit srv),
       mkWorld (fs (os_Remove (addr srv) w).2) (conns w)
               (trace w ++ [EvRemove (addr srv) r; EvListen (addr srv) (Some e)]
                        ++ if listen then [EvSend (Some e)] else [])) /\
    (e = EADDRINUSE \/ listen_fails (addr srv) = Some e).
Proof.
  unfold Serve. intros Hnil.
  assert (Hrm : exists r w1, os_Remove (addr srv) w = (r, w1) /\
                  conns w1 = conns w /\ trace w1 = trace w ++ [EvRemove (addr srv) r]).
  { unfold os_Remove. destruct (fs w !! addr srv) as [[| |[|]]|]; by eexists _, _. }
  destruct Hrm as (r & w1 & Hrm & Hc & Ht). rewrite Hrm in *. cbn [snd].
  unfold net_Listen in *. destruct (listen_fails (addr srv)) as [err|] eqn:Ef.
  - exists err, r. split; [| by right]. destruct w1 as [f1 c1 t1]. cbn in *. subst.
    destruct listen; unfold log; cbn; rewrite <- ?app_assoc; cbn; done.
  - destruct (is_abstract (addr srv)).
    { pose proof (sock_facts.Serve_loop_keeps_listener close_fails occ
                    (mkServer (addr srv) (Some (mkListener (addr srv) true false false))
                              (quit srv))
                    (log (EvDebug "Unix socket is listening")
                         (if listen then log (EvSend None) (log (EvListen (addr srv) None) w1)
                          else log (EvListen (addr srv) None) w1))) as [l Hl];
        [by eexists | congruence]. }
    destruct (fs w1 !! addr srv) as [k|] eqn:E.
    + exists EADDRINUSE, r. split; [| by left]. destruct w1 as [f1 c1 t1]. cbn in *. subst.
      destruct listen; unfold log; cbn; rewrite <- ?app_assoc; cbn; done.
    + match type of Hnil with context [serve_loop occ ?s ?w0] =>
        pose proof (sock_facts.Serve_loop_keeps_listener close_fails occ s w0) as [l Hl];
          [by eexists | congruence] end.
Qed.

(** Until somebody shuts the server down, the accept loop only hands
    connections to the handler. *)
Lemma Serve_loop_arrivals arr srv w :
  quit srv = false ->
  (forall l, listener srv = Some l -> closed l = false) ->
  serve_loop (map Arrives arr) srv w
  = (Blocked, srv, mkWorld (fs w) (conns w) (trace w ++ map EvHandle (conns_of arr))).
Proof.
  intros Hq Hl. revert w. induction arr as [|a arr IH]; intros w.
  { cbn. rewrite app_nil_r. by destruct w. }
  cbn [map Serve_loop]. unfold Accept, after_Accept. rewrite Hq.
  assert (Ha : Listener_Accept (listener srv) a = a).
  { unfold Listener_Accept. destruct (listener srv) as [l|] eqn:E; [| done].
    by rewrite (Hl l eq_refl). }
  rewrite Ha. destruct a as [c|e]; rewrite IH; cbn [conns_of map fs conns trace log].
  - by rewrite <- app_assoc.
  - done.
Qed.

Lemma goroutines_app t1 t2 : goroutines (t1 ++ t2) = goroutines t1 ++ goroutines t2.
Proof.
  induction t1 as [|e t1 IH]; [done |]. destruct e; cbn; by rewrite ?IH.
Qed.

Lemma goroutines_EvHandle cs : goroutines (map EvHandle cs) = cs.
Proof. induction cs as [|c cs IH]; [done |]. cbn. by rewrite IH. Qed.

(** X3: while [quit] is not set and nobody calls [Shutdown], [Serve]
    never returns, whatever [Accept] reports: it stays in the loop, the
    server and the file system are unchanged, for every connection
    accepted it starts one goroutine, in the order of arrival, and the
    accept errors leave no trace.  When the goroutines run is not
    fixed.  Each of them closes its connection in the end; when the
    request cannot be read it logs the error and does not call the
    handler, so that it does the same whatever the handler is. *)
Theorem Serve_loop_starts_goroutines {Request : Type} arr srv w
    (http_ReadRequest : Conn -> Request + error)
    (handlerFunc : httpResponseWriter -> Request -> World -> World) :
  quit srv = false ->
  (forall l, listener srv = Some l -> closed l = false) ->
  (serve_loop (map Arrives arr) srv w).1 = (Blocked, srv) /\
  goroutines (trace (serve_loop (map Arrives arr) srv w).2)
  = goroutines (trace w) ++ conns_of arr /\
  trace (serve_loop (map Arrives arr) srv w).2 = trace w ++ map EvHandle (conns_of arr) /\
  fs (serve_loop (map Arrives arr) srv w).2 = fs w /\
  (forall c w0, conns (serve_conn http_ReadRequest handlerFunc c w0) !! c = None) /\
  (forall c w0 err handlerFunc',
     http_ReadRequest c = inr err ->
     serve_conn http_ReadRequest handlerFunc c w0
     = serve_conn http_ReadRequest handlerFunc' c w0 /\
     trace (serve_conn http_ReadRequest handlerFunc c w0)
     = trace w0 ++ [EvError "read request" err] /\
     fs (serve_conn http_ReadRequest handlerFunc c w0) = fs w0).
Proof.
  intros Hq Hl. rewrite (Serve_loop_arrivals arr srv w Hq Hl). cbn [fst snd trace fs log].
  split_and!; try done.
  - by rewrite goroutines_app, goroutines_EvHandle.
  - intros c w0. unfold serve_conn, Conn_Close. cbn. apply lookup_delete_eq.
  - intros c w0 err handlerFunc' Hread. unfold serve_conn. by rewrite Hread.
Qed.

(** When the loop returns, it returns the sentinel, [quit] is set and
    the deferred [os.Remove] was the last thing done. *)
Lemma Serve_loop_returns occ srv w e srv' w' :
  serve_loop occ srv w = (Returned e, srv', w') ->
  e = ErrServerRequestedShutdown /\ quit srv' = true /\ addr srv' = addr srv /\
  exists t r, trace w' = trace w ++ t ++ [EvRemove (addr srv) r].
Proof.
  revert srv w. induction occ as [|o rest IH]; intros srv w H; [done |].
  cbn [Serve_loop] in H.
  assert (Haddr : forall s w0, addr (shutdown s w0).1.2 = addr s).
  { intros s w0. unfold Shutdown. destruct (quit s); cbn; [done |].
    destruct (listener s); [| done].
    by destruct (Listener_Close close_fails _ w0) as [[? ?] ?]. }
  assert (HA : addr (Accept close_fails o srv w).1.2 = addr srv).
  { unfold Accept. destruct o; [done | |]; pose proof (Haddr srv w) as H';
      destruct (shutdown srv w) as [[? s1] ?]; cbn in *; [done |].
    destruct (listener s1) as [l|]; [destruct (closed l) |]; done. }
  pose proof (sock_facts.Accept_extends close_fails o srv w) as [t1 Ht1].
  destruct (Accept close_fails o srv w) as [[[x|] srv1] w1]; cbn in HA, Ht1.
  - pose proof (sock_facts.after_Accept_extends x srv1 w1) as [t2 Ht2].
    destruct (after_Accept x srv1 w1) as [[err|] w2] eqn:Ea; cbn in Ht2.
    + destruct (sock_facts.after_Accept_returns _ _ _ _ _ Ea) as (-> & Hq & ->).
      unfold Serve_deferred in H. rewrite (sock_facts.Shutdown_quit _ _ _ Hq) in H.
      assert (Hrm : exists r, os_Remove (addr srv1) w1
                              = (r, log (EvRemove (addr srv1) r)
                                        (set_fs (fs (os_Remove (addr srv1) w1).2) w1))).
      { unfold os_Remove. destruct (fs w1 !! addr srv1) as [[| |[|]]|]; cbn;
          eexists; destruct w1; reflexivity. }
      destruct Hrm as [r Hrm]. rewrite Hrm in H. injection H as <- <- <-.
      split_and!; try done. exists t1, r. cbn. by rewrite Ht1, HA, <- app_assoc.
    + destruct (IH _ _ H) as (-> & Hq & Ha & t & r & Ht).
      split_and!; try done; [congruence |].
      exists (t1 ++ t2 ++ t), r. rewrite Ht, Ht2, Ht1, HA, <- !app_assoc. done.
  - destruct (IH _ _ H) as (-> & Hq & Ha & t & r & Ht).
    split_and!; try done; [congruence |].
    exists (t1 ++ t), r. rewrite Ht, Ht1, HA, <- !app_assoc. done.
Qed.

(** X4: once its listener is bound, the only value [Serve] returns is
    [ErrServerRequestedShutdown], and it returns it only with [quit] set;
    by then the deferred function has run, and its [os.Remove] of the
    socket path is the last thing [Serve] did. *)
Theorem Serve_returns_only_sentinel listen occ srv w e srv' w' :
  serve listen occ srv w = (Returned e, srv', w') ->
  is_Some (listener srv') ->
  e = ErrServerRequestedShutdown /\ quit srv' = true /\ addr srv' = addr srv /\
  exists t r, trace w' = trace w ++ t ++ [EvRemove (addr srv) r].
Proof.
  unfold Serve. intros H Hl.
  pose proof (sock_facts.os_Remove_extends (addr srv) w) as [t0 Ht0].
  destruct (os_Remove (addr srv) w) as [rerr w1]. cbn in Ht0.
  assert (HL : exists t, trace (net_Listen listen_fails (addr srv) w1).2 = trace w1 ++ t).
  { unfold net_Listen. destruct (listen_fails (addr srv)); [by eexists |].
    destruct (is_abstract (addr srv)); [by eexists |].
    destruct (fs w1 !! addr srv); by eexists. }
  destruct HL as [t1 Ht1].
  destruct (sock_facts.net_Listen_cases listen_fails (addr srv) w1) as [[err E] | [E _]];
    destruct (net_Listen listen_fails (addr srv) w1) as [[l lerr] w2]; cbn in E, Ht1;
    injection E as -> ->.
  - injection H as <- <- <-. by destruct Hl.
  - destruct (Serve_loop_returns _ _ _ _ _ _ H) as (-> & Hq & Ha & t & r & Ht).
    split_and!; try done. cbn in Ht.
    exists (t0 ++ t1 ++ (if listen then [EvSend None] else [])
               ++ [EvDebug "Unix socket is listening"] ++ t), r.
    rewrite Ht. destruct listen; unfold log; cbn; rewrite ?Ht1, Ht0, <- !app_assoc; done.
Qed.

(** With [quit] set and an open listener, a [Shutdown] does nothing and
    the loop returns at the first accept that completes. *)
Lemma Serve_loop_quit_set k x rest srv w l :
  quit srv = true -> listener srv = Some l -> closed l = false ->
  serve_loop (replicate k ShutdownWhileBlocked) srv w = (Blocked, srv, w) /\
  serve_loop (replicate k ShutdownWhileBlocked ++ Arrives x :: rest) srv w
  = (Returned ErrServerRequestedShutdown, srv, (os_Remove (addr srv) w).2).
Proof.
  intros Hq Hl Hc.
  assert (Hk : serve_loop (replicate k ShutdownWhileBlocked) srv w = (Blocked, srv, w)).
  { induction k as [|k IH]; [done |]. cbn [replicate Serve_loop]. unfold Accept.
    rewrite (sock_facts.Shutdown_quit _ _ _ Hq), Hl, Hc. exact IH. }
  split; [exact Hk |].
  rewrite sock_facts.Serve_loop_app, Hk. cbn [Serve_loop]. unfold Accept, after_Accept.
  rewrite Hq. unfold Serve_deferred. rewrite (sock_facts.Shutdown_quit _ _ _ Hq).
  by destruct (os_Remove (addr srv) w).
Qed.

(** X5: a [Shutdown] called before [Serve] has a listener to close only
    sets [quit].  The [Serve] that follows still binds the socket, and no
    later [Shutdown] can wake it: it stays blocked in [Accept] until a
    client connects or [Accept] fails.  Then it returns the sentinel
    without handing the connection to the handler; the deferred
    [os.Remove] removes the socket file, and the listener is never
    closed. *)
Theorem Shutdown_before_Serve a listen k x rest w :
  listen_fails a = None ->
  is_abstract a = false ->
  fs w !! a <> Some (Directory false) ->
  shutdown (NewServer a).1 w = (None, mkServer a None true, w) /\
  (serve listen (replicate k ShutdownWhileBlocked) (mkServer a None true) w).1.1 = Blocked /\
  (serve listen (replicate k ShutdownWhileBlocked ++ Arrives x :: rest)
         (mkServer a None true) w).1
  = (Returned ErrServerRequestedShutdown,
     mkServer a (Some (mkListener a true false false)) true) /\
  trace (serve listen (replicate k ShutdownWhileBlocked ++ Arrives x :: rest)
               (mkServer a None true) w).2
  = trace w ++ [EvRemove a (os_Remove a w).1; EvListen a None]
            ++ (if listen then [EvSend None] else [])
            ++ [EvDebug "Unix socket is listening"; EvRemove a None] /\
  fs (serve listen (replicate k ShutdownWhileBlocked ++ Arrives x :: rest)
         (mkServer a None true) w).2 !! a = None.
Proof.
  intros Hf Hab Hdir. split; [done |].
  unfold Serve. cbn [addr quit].
  pose proof (os_Remove_leaves a w) as Hrm.
  assert (Hfree : fs (os_Remove a w).2 !! a = None).
  { rewrite Hrm. by destruct (fs w !! a) as [[| |[|]]|]. }
  assert (Ht : trace (os_Remove a w).2 = trace w ++ [EvRemove a (os_Remove a w).1]).
  { unfold os_Remove. by destruct (fs w !! a) as [[| |[|]]|]. }
  destruct (os_Remove a w) as [r0 w1]. cbn [fst snd] in *.
  unfold net_Listen. rewrite Hf, Hab, Hfree.
  set (l := mkListener a true false false).
  set (w4 := log (EvDebug "Unix socket is listening") _).
  destruct (Serve_loop_quit_set k x rest (mkServer a (Some l) true) w4 l
              eq_refl eq_refl eq_refl) as [Hk Hx].
  rewrite Hk, Hx. cbn [fst snd addr].
  assert (Hsock : fs w4 !! a = Some SocketFile).
  { subst w4. destruct listen; cbn; apply lookup_insert_eq. }
  split_and!; try done.
  - unfold os_Remove. rewrite Hsock. subst w4.
    destruct listen; unfold log; cbn; rewrite Ht, <- !app_assoc; done.
  - unfold os_Remove. rewrite Hsock. cbn. apply lookup_delete_eq.
Qed.

(** X6: every call of [Write] sends a whole HTTP/1.0 response of its
    own and reports 0 bytes written: after [WriteHeader code], the calls
    of a handler on an open connection add one response per call, in
    order, each with the status [code], the headers and the body of that
    call. *)
Theorem Write_all_responses hw code (ds : list (list Byte.byte)) (w : World) got :
  conns w !! conn hw = Some got ->
  (Write_all (WriteHeader hw code) ds w).1 = map (fun _ => (0, None)) ds /\
  conns (Write_all (WriteHeader hw code) ds w).2 !! conn hw
  = Some (got ++ map (fun d => mkResponse code 1 0 (String.string_of_list_byte d)
                                          (header hw)) ds).
Proof.
  revert w got. induction ds as [|d ds IH]; intros w got Hg; cbn [Write_all map].
  { by rewrite app_nil_r. }
  unfold Write. unfold Response_Write. cbn [conn WriteHeader statusCode header].
  rewrite Hg.
  set (w1 := log _ (set_conns _ w)).
  assert (Hg1 : conns w1 !! conn hw
                = Some (got ++ [mkResponse code 1 0 (String.string_of_list_byte d)
                                           (header hw)])).
  { subst w1. cbn. apply lookup_insert_eq. }
  destruct (IH w1 _ Hg1) as [H1 H2].
  destruct (Write_all (WriteHeader hw code) ds w1) as [rs w2]. cbn [fst snd] in *.
  split; [by rewrite H1 |]. by rewrite H2, <- app_assoc.
Qed.

(** X7: the call of [Shutdown] that closes the listener returns the
    error of [listener.Close] and logs it unless it is [os.ErrClosed];
    [quit] is set and the listener counts as closed all the same, so the
    next call returns nil and the close is not tried again. *)
Theorem Shutdown_reports_close_error srv w l :
  quit srv = false ->
  listener srv = Some l ->
  closed l = false ->
  (shutdown srv w).1
  = (close_fails (path l),
     mkServer (addr srv) (Some (mkListener (path l) (unlink l) true true)) true) /\
  trace (shutdown srv w).2
  = trace w ++ EvClose (path l) (close_fails (path l))
            :: match close_fails (path l) with
               | Some e => if errors_Is e os_ErrClosed then []
                           else [EvError "close listener" e]
               | None => []
               end /\
  (shutdown (shutdown srv w).1.2 (shutdown srv w).2).1.1 = None.
Proof.
  intros Hq Hl Hc. split_and!.
  - unfold Shutdown. rewrite Hq. cbn [negb listener]. rewrite Hl.
    unfold Listener_Close. rewrite Hc. cbn.
    by destruct (close_fails (path l)) as [e|].
  - unfold Shutdown. rewrite Hq. cbn [negb listener]. rewrite Hl.
    unfold Listener_Close. rewrite Hc. cbn [negb listener addr quit].
    destruct (close_fails (path l)) as [e|]; [destruct (errors_Is e os_ErrClosed) |];
      destruct (negb (unlinked l) && negb (is_abstract (path l)) && unlink l);
      unfold log; cbn; rewrite <- ?app_assoc; done.
  - by rewrite (sock_facts.Shutdown_quit _ _ _ (sock_facts.Shutdown_sets_quit _ _ _)).
Qed.

End Frontend.

Lemma Serve_start_failure_witness :
  exists e r,
    Serve no_fault no_fault true [] (NewServer sock_path).1 blocked_World
    = (Returned e, mkServer sock_path None false,
       mkWorld (fs (os_Remove sock_path blocked_World).2) (conns blocked_World)
               (trace blocked_World
                ++ [EvRemove sock_path r; EvListen sock_path (Some e)]
                ++ [EvSend (Some e)])) /\
    (e = EADDRINUSE \/ no_fault sock_path = Some e).
Proof.
  apply (Serve_start_failure no_fault no_fault true [] (NewServer sock_path).1
           blocked_World).
  vm_compute. reflexivity.
Defined.

Lemma Serve_loop_starts_goroutines_witness :
  goroutines (trace (Serve_loop no_fault
                       (map Arrives [GotConn 1%nat; GotError EMFILE; GotConn 2%nat])
                       bound_Server bound_World).2)
  = [1%nat; 2%nat].
Proof.
  refine (proj1 (proj2 (Serve_loop_starts_goroutines no_fault
            [GotConn 1%nat; GotError EMFILE; GotConn 2%nat]
            bound_Server bound_World (fun _ : Conn => inl tt) (fun _ _ w => w) _ _))).
  - reflexivity.
  - intros l [= <-]. reflexivity.
Defined.

Lemma Serve_returns_only_sentinel_witness :
  let r := Serve no_fault no_fault true [ShutdownWhileBlocked]
                 (NewServer sock_path).1 stale_World in
  r.1.1 = Returned ErrServerRequestedShutdown /\ quit r.1.2 = true.
Proof.
  cbv zeta.
  destruct (Serve_returns_only_sentinel no_fault no_fault true [ShutdownWhileBlocked]
              (NewServer sock_path).1 stale_World ErrServerRequestedShutdown
              (Serve no_fault no_fault true [ShutdownWhileBlocked]
                     (NewServer sock_path).1 stale_World).1.2
              (Serve no_fault no_fault true [ShutdownWhileBlocked]
                     (NewServer sock_path).1 stale_World).2)
    as (_ & Hq & _).
  - vm_compute. reflexivity.
  - vm_compute. eexists. reflexivity.
  - split; [vm_compute; reflexivity | exact Hq].
Defined.

Lemma Shutdown_before_Serve_witness :
  fs (Serve no_fault no_fault true [ShutdownWhileBlocked; Arrives (GotConn 1%nat)]
            (mkServer sock_path None true) stale_World).2 !! sock_path = None.
Proof.
  refine (proj2 (proj2 (proj2 (proj2
            (Shutdown_before_Serve no_fault no_fault sock_path true 1 (GotConn 1%nat) []
               stale_World _ _ _))))).
  - reflexivity.
  - reflexivity.
  - vm_compute. discriminate.
Defined.

Lemma Write_all_responses_witness :
  conns (Write_all (WriteHeader (newHTTPResponseWriter 7%nat) 403)
                   [[Byte.x4e]; [Byte.x4f]]
                   (mkWorld ∅ {[7%nat := []]} [])).2 !! 7%nat
  = Some [mkResponse 403 1 0 "N" []; mkResponse 403 1 0 "O" []].
Proof.
  refine (proj2 (Write_all_responses (newHTTPResponseWriter 7%nat) 403
                   [[Byte.x4e]; [Byte.x4f]] (mkWorld ∅ {[7%nat := []]} []) [] _)).
  vm_compute. reflexivity.
Defined.

Lemma Shutdown_reports_close_error_witness :
  (Shutdown (fun _ => Some EMFILE) bound_Server bound_World).1.1 = Some EMFILE.
Proof.
  refine (f_equal fst (proj1 (Shutdown_reports_close_error (fun _ => Some EMFILE)
            bound_Server bound_World (mkListener sock_path true false false) _ _ _)));
    reflexivity.
Defined.

End sock_more.

(** ** More on the docker executor *)

Module executor_more.
Import executor.

(** X8: [newDocker] gives an executor or an error, never both and never
    neither.  The executor it gives runs in the container named by
    [containerName] when that entry is a string, and then the entry
    [image] is not read, even when the name is the empty string;
    otherwise it uses the image named by a string [image].  The executor
    writes to [os.Stdout] and has no context and no cancel function yet.
    When no section of the configuration has to be decoded, the only
    error is the one for a configuration with neither entry. *)
Theorem newDocker_target md step (config : gmap string Value) :
  match newDocker md step config with
  | (Some (e, h), None) =>
      match as_string (config !! "containerName") with
      | Some name => containerName e = name /\ image e = ""
      | None => as_string (config !! "image") = Some (image e) /\ containerName e = ""
      end /\
      executor.step e = step /\ stdout e = os_Stdout /\
      context e = None /\ cancel e = None
  | (None, Some err) =>
      (config !! "container" = None -> config !! "host" = None ->
       config !! "exec" = None ->
       err = errNoTarget /\
       as_string (config !! "containerName") = None /\
       as_string (config !! "image") = None)
  | _ => False
  end.
Proof.
  unfold newDocker, decode_section.
  repeat (case_match; simplify_eq; try done); cbn; try done;
    try (intros; simplify_eq; done).
Qed.

(** X9: the executor of [newDocker] pulls unless [pull] is the boolean
    false, and removes its container when [autoRemove] is the boolean
    true or, without a boolean [autoRemove], when the host section asked
    for it; the host configuration handed to the daemon never has
    [AutoRemove] set, so that the removal is left to the executor. *)
Theorem newDocker_autoRemove md step (config : gmap string Value) e h :
  newDocker md step config = (Some (e, h), None) ->
  AutoRemove h = false /\
  autoRemove e
  = match as_bool (config !! "autoRemove") with
    | Some a => a
    | None =>
        AutoRemove (decode_section md (Decode_HostConfig md) (config !! "host")
                                   (mkHostConfig false)).1
    end /\
  pull e = default true (as_bool (config !! "pull")).
Proof.
  unfold newDocker, decode_section.
  repeat (case_match; simplify_eq; try done); cbn; intros; simplify_eq; cbn;
    try done; by destruct_and?; repeat case_match.
Qed.

Lemma newDocker_target_witness :
  match newDocker plain_Mapstructure (mkStep "echo" ["hello"])
                  {["containerName" := VString ""; "image" := VString "alpine"]} with
  | (Some (e, h), None) => containerName e = "" /\ image e = ""
  | _ => False
  end.
Proof.
  pose proof (newDocker_target plain_Mapstructure (mkStep "echo" ["hello"])
                {["containerName" := VString ""; "image" := VString "alpine"]}) as H.
  vm_compute in H. vm_compute. tauto.
Defined.

Lemma newDocker_autoRemove_witness :
  autoRemove
    (mkDocker "alpine" "" true false (mkStep "echo" []) os_Stdout None None
              (mkConfig "" []) (mkExecConfig "" false false false false false [] [] ""))
  = false.
Proof.
  refine (proj1 (proj2 (newDocker_autoRemove plain_Mapstructure (mkStep "echo" [])
            {["image" := VString "alpine"; "autoRemove" := VBool false]} _
            (mkHostConfig false) _))).
  vm_compute. reflexivity.
Defined.

Section Docker.

Variable dk : Daemon.

#[local] Arguments removeContainer : simpl never.

(** *** What the steps of [Run] leave alone *)

Lemma StdCopy_keeps a b src w :
  ctxs (StdCopy a b src w).2 = ctxs w /\
  cells (StdCopy a b src w).2 = cells w /\
  calls (StdCopy a b src w).2 = calls w /\
  next (StdCopy a b src w).2 = next w.
Proof.
  revert w. induction src as [|[[| | |] s] rest IH]; intros w; cbn [StdCopy];
    try done; by destruct (IH (write a s w)), (IH (write b s w)).
Qed.

Lemma filter_removal_container c :
  is_removal c = true -> is_container_call c = true.
Proof. by destruct c. Qed.

(** The wait for the exec calls nobody: a [Kill] during it only cancels
    the context. *)
Lemma exec_wait_keeps polls e ctx w :
  cancel e = Some (cancelFunc ctx) ->
  cells (exec_wait dk polls e ctx w).2 = cells w /\
  calls (exec_wait dk polls e ctx w).2 = calls w /\
  next (exec_wait dk polls e ctx w).2 = next w.
Proof.
  intros Hc. revert w. induction polls as [|p rest IH]; intros w; cbn [exec_wait];
    [done |].
  destruct (failure p); [done |].
  destruct (Running (answer p)); cbn [negb];
    [| by destruct (negb (bool_decide (ExitCode (answer p) = 0)))].
  destruct (killed p).
  - unfold Kill. rewrite Hc. cbn.
    match goal with |- context [ctx_Done ctx ?w1] => destruct (ctx_Done ctx w1) end;
      [done |].
    match goal with |- context [exec_wait dk rest e ctx ?w1] =>
      destruct (IH w1) as (-> & -> & ->) end. done.
  - destruct (ctx_Done ctx w); [done | apply IH].
Qed.

Lemma execInContainer_keeps e ctx w :
  cancel e = Some (cancelFunc ctx) ->
  cells (execInContainer dk e ctx w).2 = cells w /\
  next (execInContainer dk e ctx w).2 = next w /\
  exists t, calls (execInContainer dk e ctx w).2 = calls w ++ t /\
            List.filter is_container_call t = [].
Proof.
  intros Hc. unfold execInContainer.
  destruct (ContainerInspect dk (containerName e)) as [running [err|]].
  { split_and!; try done. exists []. by rewrite app_nil_r. }
  destruct running; cbn [negb]; [| split_and!; try done; exists []; by rewrite app_nil_r].
  destruct (ContainerExecCreate dk (containerName e) (new_ExecConfig e)) as [execID [err|]].
  { split_and!; try done. by eexists [_]. }
  destruct (ContainerExecAttach dk execID) as [frames [err|]].
  { split_and!; try done. by eexists [_]. }
  pose proof (StdCopy_keeps (stdout e) (stdout e) frames
                (record (CallExecCreate (containerName e) (new_ExecConfig e)) w))
    as (_ & Hcells & Hcalls & Hnext).
  destruct (StdCopy (stdout e) (stdout e) frames _) as [cerr w2]. cbn [snd] in *.
  match goal with |- context [exec_wait dk ?ps e ctx ?w3] =>
    destruct (exec_wait_keeps ps e ctx w3 Hc) as (-> & -> & ->) end.
  destruct cerr as [cerr|]; cbn; rewrite ?Hcells, ?Hcalls, ?Hnext; cbn;
    (split_and!; try done).
  - eexists [_; _]. by rewrite <- app_assoc.
  - by eexists [_].
Qed.

Lemma attachAndWait_keeps e id w :
  ctxs (attachAndWait dk e id w).2 = ctxs w /\
  cells (attachAndWait dk e id w).2 = cells w /\
  next (attachAndWait dk e id w).2 = next w /\
  exists t, calls (attachAndWait dk e id w).2 = calls w ++ t /\
            List.filter is_container_call t = [].
Proof.
  unfold attachAndWait. destruct (ContainerLogs dk id) as [out [err|]].
  { split_and!; try done. exists []. by rewrite app_nil_r. }
  pose proof (StdCopy_keeps (stdout e) (stdout e) out w) as (Hctx & Hcells & Hcalls & Hnext).
  destruct (StdCopy (stdout e) (stdout e) out w) as [cerr w1]. cbn [snd] in *.
  assert (Hw2 : forall w2 : World,
            w2 = match cerr with
                 | Some cerr => record (LogError "docker executor: stdcopy" cerr) w1
                 | None => w1
                 end ->
            ctxs w2 = ctxs w /\ cells w2 = cells w /\ next w2 = next w /\
            exists t, calls w2 = calls w ++ t /\ List.filter is_container_call t = []).
  { intros w2 ->. destruct cerr; cbn; rewrite ?Hctx, ?Hcells, ?Hcalls, ?Hnext;
      split_and!; try done; [by eexists [_] | exists []; by rewrite app_nil_r]. }
  destruct (ContainerWait dk id) as [[err|]|code|]; cbn [snd];
    try destruct (negb (bool_decide (code = 0))); cbn [snd]; by apply Hw2.
Qed.

Lemma filter_removal_nil t :
  List.filter is_container_call t = [] -> List.filter is_removal t = [].
Proof.
  induction t as [|c t IH]; [done |]. cbn.
  destruct (is_container_call c) eqn:E; [done |]. intros H.
  destruct c; try done; cbn; by apply IH.
Qed.

Lemma filter_removal_calls id :
  List.filter is_removal (removal_calls dk id)
  = [CallContainerRemove id (ContainerRemove dk id)].
Proof. unfold removal_calls. by destruct (ContainerRemove dk id). Qed.

(** What [removeContainer] does, by cases. *)
Lemma removeContainer_cases e removing id w :
  removeContainer dk e removing id w
  = if negb (autoRemove e) || default false (cells w !! removing) then w
    else mkWorld (ctxs w) (<[removing := true]> (cells w)) (outputs w)
                 (calls w ++ removal_calls dk id) (next w).
Proof.
  unfold removeContainer, removal_calls.
  destruct (negb (autoRemove e) || default false (cells w !! removing)); [done |].
  destruct (ContainerRemove dk id); unfold record; cbn; by rewrite <- ?app_assoc.
Qed.

(** The part of [Run] for a new container, once the container is
    created: the cancel function it installs, the variable [removing] it
    leaves, and the calls it makes. *)
Lemma Run_container_created e ctx w1 id :
  ContainerCreate dk (new_Config e) = (id, None) ->
  cancel (Run_container dk e ctx w1).1.2 = Some (removeAndCancel (next w1) id ctx) /\
  autoRemove (Run_container dk e ctx w1).1.2 = autoRemove e /\
  context (Run_container dk e ctx w1).1.2 = context e /\
  ctxs (Run_container dk e ctx w1).2 = ctxs w1 /\
  cells (Run_container dk e ctx w1).2
  = <[next w1 := autoRemove e && is_Returned (Run_container dk e ctx w1).1.1]> (cells w1) /\
  exists t,
    calls (Run_container dk e ctx w1).2 = calls w1 ++ t /\
    List.filter is_removal t
    = if autoRemove e && is_Returned (Run_container dk e ctx w1).1.1
      then [CallContainerRemove id (ContainerRemove dk id)] else [].
Proof.
  intros Hcreate. unfold Run_container. cbv zeta.
  rewrite executor_facts.new_Config_eq, Hcreate.
  change (next (record (CallContainerCreate (new_Config e)) w1)) with (next w1).
  set (e1 := set_cancel _ _ _).
  assert (Hauto : autoRemove e1 = autoRemove e).
  { subst e1. by destruct (negb (bool_decide (image e = ""))). }
  assert (Hctx : context e1 = context e).
  { subst e1. by destruct (negb (bool_decide (image e = ""))). }
  set (w4 := record (CallContainerStart id) _).
  assert (Hcell : cells w4 !! next w1 = Some false).
  { subst w4. cbn. apply lookup_insert_eq. }
  assert (Hrm : forall w5, cells w5 = cells w4 -> ctxs w5 = ctxs w1 ->
            removeContainer dk e1 (next w1) id w5
            = if autoRemove e then
                mkWorld (ctxs w5) (<[next w1 := true]> (cells w5)) (outputs w5)
                        (calls w5 ++ removal_calls dk id) (next w5)
              else w5).
  { intros w5 Hc5 _. rewrite removeContainer_cases, Hauto, Hc5, Hcell. cbn.
    by destruct (autoRemove e). }
  destruct (ContainerStart dk id) as [err|].
  - cbn [fst snd is_Returned]. rewrite andb_true_r, (Hrm w4 eq_refl eq_refl).
    split_and!; try done.
    + by destruct (autoRemove e).
    + destruct (autoRemove e); unfold record; cbn; [by rewrite insert_insert_eq | done].
    + destruct (autoRemove e); unfold record; cbn.
      * eexists ([_; _] ++ removal_calls dk id ++ [_]).
        split; [by rewrite <- !app_assoc |].
        rewrite !List.filter_app, filter_removal_calls. done.
      * eexists [_; _; _]. split; [by rewrite <- !app_assoc | done].
  - pose proof (attachAndWait_keeps e1 id w4) as (Hc & Hce & Hn & t & Ht & Hf).
    destruct (attachAndWait dk e1 id w4) as [r w5]. cbn [fst snd] in *.
    destruct r as [x| |]; cbn [when_returned is_Returned];
      rewrite ?andb_true_r, ?andb_false_r.
    + rewrite (Hrm w5 Hce Hc). split_and!; try done.
      * by destruct (autoRemove e).
      * destruct (autoRemove e); unfold record; cbn; rewrite Hce; cbn;
          [by rewrite insert_insert_eq | done].
      * destruct (autoRemove e); unfold record; cbn; rewrite Ht; cbn.
        -- eexists ([_; _] ++ t ++ removal_calls dk id ++ [_]).
           split; [by rewrite <- !app_assoc |].
           rewrite !List.filter_app, filter_removal_calls,
             (filter_removal_nil _ Hf). done.
        -- eexists ([_; _] ++ t ++ [_]). split; [by rewrite <- !app_assoc |].
           rewrite !List.filter_app, (filter_removal_nil _ Hf). done.
    + split_and!; try done. eexists ([_; _] ++ t). rewrite Ht. unfold record. cbn.
      split; [by rewrite <- ?app_assoc |]. cbn. by apply filter_removal_nil.
    + split_and!; try done. eexists ([_; _] ++ t). rewrite Ht. unfold record. cbn.
      split; [by rewrite <- ?app_assoc |]. cbn. by apply filter_removal_nil.
Qed.

Lemma Run_container_failed e ctx w1 id err :
  ContainerCreate dk (new_Config e) = (id, Some err) ->
  cancel (Run_container dk e ctx w1).1.2 = cancel e /\
  autoRemove (Run_container dk e ctx w1).1.2 = autoRemove e /\
  context (Run_container dk e ctx w1).1.2 = context e /\
  ctxs (Run_container dk e ctx w1).2 = ctxs w1 /\
  cells (Run_container dk e ctx w1).2 = cells w1 /\
  calls (Run_container dk e ctx w1).2
  = calls w1 ++ [CallContainerCreate (new_Config e); CallClose].
Proof.
  intros Hcreate. unfold Run_container. cbv zeta.
  rewrite executor_facts.new_Config_eq, Hcreate. cbn.
  split_and!; try (by destruct (negb (bool_decide (image e = "")))).
  by rewrite <- app_assoc.
Qed.

(** What [Run] leaves behind: the context and the cancel function of
    the executor, the variable [removing], and the calls made. *)
Lemma Run_shape e w :
  context (Run dk e w).1.2 = Some (next w) /\
  autoRemove (Run dk e w).1.2 = autoRemove e /\
  cancel (Run dk e w).1.2
  = match created_container dk e with
    | Some id => Some (removeAndCancel (S (next w)) id (next w))
    | None => Some (cancelFunc (next w))
    end /\
  cells (Run dk e w).2
  = match created_container dk e with
    | Some id =>
        <[S (next w) := autoRemove e && is_Returned (Run dk e w).1.1]> (cells w)
    | None => cells w
    end /\
  exists t,
    calls (Run dk e w).2 = calls w ++ t /\
    List.filter is_removal t
    = match created_container dk e with
      | Some id =>
          if autoRemove e && is_Returned (Run dk e w).1.1
          then [CallContainerRemove id (ContainerRemove dk id)] else []
      | None => []
      end.
Proof.
  unfold Run, created_container.
  set (e0 := set_cancel e (Some (next w)) (Some (cancelFunc (next w)))).
  set (w0 := bump (set_ctxs (<[next w := false]> (ctxs w)) w)).
  assert (Hnil : exists t : list Call, calls w0 = calls w ++ t /\ List.filter is_removal t = []).
  { exists []. by rewrite app_nil_r. }
  destruct (NewClientWithOpts dk) as [err|]; [done |].
  change (containerName e0) with (containerName e).
  change (pull e0) with (pull e). change (image e0) with (image e).
  destruct (negb (bool_decide (containerName e = ""))).
  - pose proof (execInContainer_keeps e0 (next w) w0 eq_refl) as (Hce & Hn & t & Ht & Hf).
    destruct (execInContainer dk e0 (next w) w0) as [r w1]. cbn [fst snd] in *.
    split_and!; try done.
    + by destruct r.
    + destruct r; cbn; rewrite Ht.
      * exists (t ++ [CallClose]). split; [by rewrite <- app_assoc |].
        rewrite List.filter_app, (filter_removal_nil _ Hf). done.
      * exists t. split; [done | by apply filter_removal_nil].
      * exists t. split; [done | by apply filter_removal_nil].
  - assert (Hgo : forall w1, cells w1 = cells w -> calls w1 = calls w ->
              next w1 = S (next w) ->
              let r := Run_container dk e0 (next w) w1 in
              context r.1.2 = Some (next w) /\ autoRemove r.1.2 = autoRemove e /\
              cancel r.1.2
              = match ContainerCreate dk (new_Config e) with
                | (id, None) => Some (removeAndCancel (S (next w)) id (next w))
                | (_, Some _) => Some (cancelFunc (next w))
                end /\
              cells r.2
              = match ContainerCreate dk (new_Config e) with
                | (id, None) =>
                    <[S (next w) := autoRemove e && is_Returned r.1.1]> (cells w)
                | (_, Some _) => cells w
                end /\
              exists t, calls r.2 = calls w ++ t /\
                List.filter is_removal t
                = match ContainerCreate dk (new_Config e) with
                  | (id, None) =>
                      if autoRemove e && is_Returned r.1.1
                      then [CallContainerRemove id (ContainerRemove dk id)] else []
                  | (_, Some _) => []
                  end).
    { intros w1 Hc1 Hk1 Hn1. cbv zeta.
      change (new_Config e) with (new_Config e0).
      destruct (ContainerCreate dk (new_Config e0)) as [id [err|]] eqn:Hcreate.
      - destruct (Run_container_failed e0 (next w) w1 id err Hcreate)
          as (-> & -> & -> & _ & -> & ->). rewrite Hk1. split_and!; try done.
        by eexists [_; _].
      - destruct (Run_container_created e0 (next w) w1 id Hcreate)
          as (-> & -> & -> & _ & -> & t & -> & Hf).
        rewrite Hn1, Hc1, Hk1. split_and!; try done. by exists t. }
    destruct (pull e).
    + destruct (ImagePull dk (image e)) as [reader [err|]].
      { split_and!; try done. by eexists [_]. }
      destruct (io_Copy dk) as [err|].
      { split_and!; try done. by eexists [_]. }
      cbn [bool_decide decide_rel]. 
      specialize (Hgo (write (stdout e0) reader w0) eq_refl eq_refl eq_refl).
      cbv zeta in Hgo. by destruct (ContainerCreate dk (new_Config e)) as [id [err|]].
    + specialize (Hgo w0 eq_refl eq_refl eq_refl).
      cbv zeta in Hgo. by destruct (ContainerCreate dk (new_Config e)) as [id [err|]].
Qed.

(** X10: an executor for an existing container never creates, starts or
    removes a container, whatever [autoRemove] says: [Run] leaves the
    calls of these kinds as they were. *)
Theorem Run_exec_leaves_containers e w :
  containerName e <> "" ->
  List.filter is_container_call (calls (Run dk e w).2)
  = List.filter is_container_call (calls w).
Proof.
  intros Hname. unfold Run.
  destruct (NewClientWithOpts dk) as [err|]; [done |].
  cbn [containerName set_cancel].
  rewrite bool_decide_eq_false_2 by done. cbn [negb].
  match goal with |- context [execInContainer dk ?e0 ?c ?w0] =>
    pose proof (execInContainer_keeps e0 c w0 eq_refl) as (_ & _ & t & Ht & Hf);
    destruct (execInContainer dk e0 c w0) as [r w1] end.
  cbn [fst snd] in *.
  destruct r; cbn; rewrite Ht, ?List.filter_app, Hf; cbn; by rewrite ?app_nil_r.
Qed.

(** X11: [Run] calls [ContainerRemove] at most once: exactly when it
    created a container, [autoRemove] is set and it returns, and then for
    the container it created; in every other case it removes nothing. *)
Theorem Run_removes_once e w :
  List.filter is_removal (calls (Run dk e w).2)
  = List.filter is_removal (calls w)
    ++ match created_container dk e with
       | Some id =>
           if autoRemove e && is_Returned (Run dk e w).1.1
           then [CallContainerRemove id (ContainerRemove dk id)] else []
       | None => []
       end.
Proof.
  destruct (Run_shape e w) as (_ & _ & _ & _ & t & Ht & Hf).
  by rewrite Ht, List.filter_app, Hf.
Qed.

(** X12: [Kill] after [Run] always returns nil and cancels the context
    that [Run] made.  When [Run] has returned, [Kill] calls nobody; while
    [Run] still waits for a container it created, [Kill] removes that
    container if [autoRemove] is set. *)
Theorem Kill_after_Run e w :
  context (Run dk e w).1.2 = Some (next w) /\
  (Kill dk (Run dk e w).1.2 (Run dk e w).2).1 = Returned None /\
  ctx_Done (next w) (Kill dk (Run dk e w).1.2 (Run dk e w).2).2 = true /\
  calls (Kill dk (Run dk e w).1.2 (Run dk e w).2).2
  = calls (Run dk e w).2
    ++ match created_container dk e with
       | Some id =>
           if autoRemove e && negb (is_Returned (Run dk e w).1.1)
           then removal_calls dk id else []
       | None => []
       end.
Proof.
  destruct (Run_shape e w) as (Hctx & Hauto & Hcancel & Hcells & _).
  split; [exact Hctx |]. unfold Kill. rewrite Hcancel.
  destruct (created_container dk e) as [id|]; cbn.
  - rewrite removeContainer_cases, Hauto, Hcells, lookup_insert_eq. cbn.
    destruct (autoRemove e), (is_Returned (Run dk e w).1.1); cbn;
      unfold ctx_Done, set_ctxs; cbn; rewrite lookup_insert_eq, ?app_nil_r; done.
  - unfold ctx_Done, set_ctxs. cbn. by rewrite lookup_insert_eq, app_nil_r.
Qed.

(** *** Kill during the wait for the exec *)

Lemma exec_wait_killed pre p rest e ctx w :
  cancel e = Some (cancelFunc ctx) ->
  ctx_Done ctx w = false ->
  Forall (fun q => failure q = None /\ Running (answer q) = true /\ killed q = false) pre ->
  failure p = None -> Running (answer p) = true -> killed p = true ->
  (exec_wait dk (pre ++ p :: rest) e ctx w).1 = Returned (Some context_Canceled).
Proof.
  intros Hc Hd Hpre Hf Hr Hk. induction Hpre as [|q pre (Hqf & Hqr & Hqk) _ IH].
  - cbn [app exec_wait]. rewrite Hf, Hr, Hk. cbn [negb]. unfold Kill. rewrite Hc. cbn.
    unfold ctx_Done, set_ctxs. cbn. by rewrite lookup_insert_eq.
  - cbn [app exec_wait]. rewrite Hqf, Hqr, Hqk. cbn [negb]. by rewrite Hd.
Qed.

(** X13: on the exec path, a [Kill] that comes while the exec is still
    running makes [Run] return the error of the cancelled context at the
    next [select], without asking the daemon again. *)
Theorem Run_exec_canceled_by_Kill e w execID pre p rest :
  NewClientWithOpts dk = None ->
  containerName e <> "" ->
  ContainerInspect dk (containerName e) = (true, None) ->
  ContainerExecCreate dk (containerName e) (new_ExecConfig e) = (execID, None) ->
  (ContainerExecAttach dk execID).2 = None ->
  ContainerExecInspect dk execID = pre ++ p :: rest ->
  Forall (fun q => failure q = None /\ Running (answer q) = true /\ killed q = false) pre ->
  failure p = None -> Running (answer p) = true -> killed p = true ->
  (Run dk e w).1.1 = Returned (Some context_Canceled).
Proof.
  intros Hcli Hname Hins Hcreate Hatt Hpolls Hpre Hf Hr Hk.
  unfold Run. rewrite Hcli. cbn [containerName set_cancel].
  rewrite bool_decide_eq_false_2 by done. cbn [negb].
  unfold execInContainer. cbn [containerName set_cancel stdout].
  rewrite Hins. cbn [negb].
  change (new_ExecConfig (set_cancel e (Some (next w)) (Some (cancelFunc (next w)))))
    with (new_ExecConfig e).
  rewrite Hcreate.
  destruct (ContainerExecAttach dk execID) as [frames aerr]. cbn in Hatt. subst aerr.
  match goal with |- context [StdCopy ?a ?b frames ?w1] =>
    pose proof (StdCopy_keeps a b frames w1) as (Hctx & _);
    destruct (StdCopy a b frames w1) as [cerr w2] end.
  cbn [snd] in Hctx. rewrite Hpolls.
  match goal with |- context [exec_wait dk _ ?e0 ?c ?w3] =>
    pose proof (exec_wait_killed pre p rest e0 c w3 eq_refl) as H end.
  match type of H with ?A -> _ => assert (Hd : A) end.
  { unfold ctx_Done. destruct cerr; cbn; rewrite Hctx; cbn; by rewrite lookup_insert_eq. }
  specialize (H Hd Hpre Hf Hr Hk).
  by destruct (exec_wait dk _ _ _ _) as [r w4].
Qed.

(** *** The output of the container does not decide the result *)

Lemma exec_wait_result polls e e' ctx w w' :
  cancel e = Some (cancelFunc ctx) ->
  cancel e' = Some (cancelFunc ctx) ->
  ctx_Done ctx w = ctx_Done ctx w' ->
  (exec_wait dk polls e ctx w).1 = (exec_wait dk polls e' ctx w').1.
Proof.
  intros Hc Hc'. revert w w'. induction polls as [|p rest IH]; intros w w' Hd;
    cbn [exec_wait]; [done |].
  destruct (failure p); [done |].
  destruct (Running (answer p)); cbn [negb];
    [| by destruct (negb (bool_decide (ExitCode (answer p) = 0)))].
  destruct (killed p).
  - unfold Kill. rewrite Hc, Hc'. cbn. unfold ctx_Done, set_ctxs. cbn.
    by rewrite !lookup_insert_eq.
  - rewrite <- Hd. destruct (ctx_Done ctx w) eqn:E; [done |]. apply IH. congruence.
Qed.

Lemma attachAndWait_result logs attached e e' id w w' :
  (attachAndWait (with_frames logs attached dk) e' id w').1
  = (attachAndWait dk e id w).1.
Proof.
  unfold attachAndWait. cbn [with_frames ContainerLogs ContainerWait].
  destruct (ContainerLogs dk id) as [out [err|]]; cbn [snd]; [done |].
  destruct (StdCopy (stdout e') (stdout e') (logs id) w') as [c' w1'].
  destruct (StdCopy (stdout e) (stdout e) out w) as [c w1].
  destruct (ContainerWait dk id) as [[err|]|code|]; try done.
  by destruct (negb (bool_decide (code = 0))).
Qed.

(** The result of [Run] with other output streams, and with another
    writer when [Run] does not copy the output of a pull to it. *)
Lemma Run_result_same logs attached e out w :
  out = stdout e \/ pull e = false \/ containerName e <> "" ->
  (Run (with_frames logs attached dk) (SetStdout e out) w).1.1 = (Run dk e w).1.1.
Proof.
  intros _. unfold Run. cbn [with_frames NewClientWithOpts].
  destruct (NewClientWithOpts dk) as [err|]; [done |].
  cbn [containerName set_cancel SetStdout pull image].
  destruct (negb (bool_decide (containerName e = ""))).
  - unfold execInContainer.
    cbn [with_frames ContainerInspect ContainerExecCreate ContainerExecAttach
         ContainerExecInspect containerName set_cancel SetStdout stdout].
    destruct (ContainerInspect dk (containerName e)) as [running [err|]]; [done |].
    destruct running; cbn [negb]; [| done].
    repeat match goal with |- context [new_ExecConfig ?x] =>
      progress change (new_ExecConfig x) with (new_ExecConfig e) end.
    destruct (ContainerExecCreate dk (containerName e) (new_ExecConfig e))
      as [execID [err|]]; [done |].
    destruct (ContainerExecAttach dk execID) as [frames [err|]]; cbn [snd]; [done |].
    match goal with |- context [StdCopy out out (attached execID) ?w1] =>
      pose proof (StdCopy_keeps out out (attached execID) w1) as (Hc1 & _);
      destruct (StdCopy out out (attached execID) w1) as [c1 wa] end.
    match goal with |- context [StdCopy (stdout e) (stdout e) frames ?w1] =>
      pose proof (StdCopy_keeps (stdout e) (stdout e) frames w1) as (Hc2 & _);
      destruct (StdCopy (stdout e) (stdout e) frames w1) as [c2 wb] end.
    cbn [snd] in Hc1, Hc2.
    match goal with
      |- context [exec_wait (with_frames logs attached dk) ?ps ?ea ?c ?w3] =>
        change (exec_wait (with_frames logs attached dk) ps ea c w3)
          with (exec_wait dk ps ea c w3) end.
    match goal with |- ?L = ?R =>
      match L with context [exec_wait dk ?ps ?ea ?c ?w3] =>
        match R with context [exec_wait dk _ ?eb _ ?w4] =>
          pose proof (exec_wait_result ps ea eb c w3 w4 eq_refl eq_refl) as H;
          destruct (exec_wait dk ps ea c w3) as [ra wra];
          destruct (exec_wait dk ps eb c w4) as [rb wrb]
        end end end.
    cbn [fst snd] in *. apply H.
    unfold ctx_Done. destruct c1, c2; cbn; by rewrite Hc1, Hc2.
  - assert (Hgo : forall ea eb wa wb,
              image ea = image eb -> containerConfig ea = containerConfig eb ->
              step ea = step eb ->
              (Run_container (with_frames logs attached dk) ea (next w) wa).1.1
              = (Run_container dk eb (next w) wb).1.1).
    { intros ea eb wa wb Hi Hcc Hs. unfold Run_container. cbv zeta.
      rewrite !executor_facts.new_Config_eq.
      assert (new_Config ea = new_Config eb) as ->.
      { unfold new_Config. by rewrite Hi, Hcc, Hs. }
      cbn [with_frames ContainerCreate ContainerStart].
      destruct (ContainerCreate dk (new_Config eb)) as [id [err|]]; [done |].
      destruct (ContainerStart dk id) as [err|]; [done |].
      match goal with |- ?L = ?R =>
        match L with context [attachAndWait _ ?e1 id ?w1] =>
          match R with context [attachAndWait dk ?e2 id ?w2] =>
            pose proof (attachAndWait_result logs attached e2 e1 id w2 w1) as H;
            destruct (attachAndWait (with_frames logs attached dk) e1 id w1) as [ra wra];
            destruct (attachAndWait dk e2 id w2) as [rb wrb]
          end end end.
      exact H. }
    destruct (pull e); cbn [with_frames ImagePull io_Copy].
    + destruct (ImagePull dk (image e)) as [reader [err|]]; [done |].
      destruct (io_Copy dk) as [err|]; [done |]. by apply Hgo.
    + by apply Hgo.
Qed.

(** X14: what the container or the exec writes never decides what [Run]
    returns: with other output streams (also ones that fail to copy)
    [Run] returns the same, since the copy runs on its own and its error
    is only logged.  The writer decides it only through the copy of the
    output of a pull: for an executor that does not pull, or that runs
    in an existing container, [Run] returns the same with another
    writer too. *)
Theorem Run_ignores_output logs attached e out w :
  (Run (with_frames logs attached dk) e w).1.1 = (Run dk e w).1.1 /\
  (pull e = false \/ containerName e <> "" ->
   (Run (with_frames logs attached dk) (SetStdout e out) w).1.1 = (Run dk e w).1.1).
Proof.
  split.
  - rewrite <- (Run_result_same logs attached e (stdout e) w) by (by left).
    by destruct e.
  - intros H. apply Run_result_same. by right.
Qed.

End Docker.

Lemma Run_exec_leaves_containers_witness :
  List.filter is_container_call (calls (Run (plain_Daemon 0) exec_docker empty_World).2)
  = List.filter is_container_call (calls empty_World).
Proof.
  apply (Run_exec_leaves_containers (plain_Daemon 0) exec_docker empty_World).
  discriminate.
Defined.

Lemma Run_ignores_output_witness :
  (Run (with_frames (fun _ => []) (fun _ => [(Stderr, "other")]) (plain_Daemon 0))
       (SetStdout exec_docker 7%nat) empty_World).1.1
  = (Run (plain_Daemon 0) exec_docker empty_World).1.1.
Proof.
  apply (Run_ignores_output (plain_Daemon 0) (fun _ => []) (fun _ => [(Stderr, "other")])
           exec_docker 7%nat empty_World).
  right. discriminate.
Defined.

Lemma Run_exec_canceled_by_Kill_witness :
  (Run waiting_Daemon exec_docker empty_World).1.1 = Returned (Some context_Canceled).
Proof.
  apply (Run_exec_canceled_by_Kill waiting_Daemon exec_docker empty_World "x1"
           [mkPoll (mkExecInspect true 0) None false]
           (mkPoll (mkExecInspect true 0) None true)
           [mkPoll (mkExecInspect false 0) None false]);
    try reflexivity; try discriminate.
  repeat constructor.
Defined.

(** [Kill] while [Run] waits for the container it created. *)
Example Kill_while_Run_waits :
  let r := Run waiting_Daemon image_docker empty_World in
  r.1.1 = Pending /\
  calls (Kill waiting_Daemon r.1.2 r.2).2
  = [CallContainerCreate (mkConfig "alpine:latest" ["echo"; "hello"]);
     CallContainerStart "c1"; CallContainerRemove "c1" None].
Proof. vm_compute. done. Qed.

End executor_more.

(** ** The ssh executor *)

Module sshexec_facts.
Import sshexec.

Lemma strings_Join_cons a b rest sep :
  strings_Join (a :: b :: rest) sep = a +:+ sep +:+ strings_Join (b :: rest) sep.
Proof. done. Qed.

Lemma append_assoc (a b c : string) : (a +:+ b) +:+ c = a +:+ (b +:+ c).
Proof.
  induction a as [|x a IH]; [done |].
  change (String x ((a +:+ b) +:+ c) = String x (a +:+ (b +:+ c))).
  by rewrite IH.
Qed.

Lemma strings_Join_split xs a b ys sep :
  strings_Join (xs ++ (a +:+ sep +:+ b) :: ys) sep = strings_Join (xs ++ a :: b :: ys) sep.
Proof.
  induction xs as [|x xs IH].
  - cbn [app]. destruct ys as [|y ys]; [done |].
    by rewrite !strings_Join_cons, !append_assoc.
  - destruct xs as [|x' xs].
    + cbn [app] in *. by rewrite !strings_Join_cons, IH.
    + cbn [app] in *. rewrite (strings_Join_cons x), (strings_Join_cons x (x')).
      by rewrite IH.
Qed.

(** X15: the command line of the ssh executor joins the command and its
    arguments with single spaces and quotes nothing, so the bounds of the
    arguments are lost: an argument with a space in it gives the same
    line as two arguments. *)
Theorem command_line_unquoted c xs a b ys :
  command_line (executor.mkStep c (xs ++ (a +:+ " " +:+ b) :: ys))
  = command_line (executor.mkStep c (xs ++ a :: b :: ys)).
Proof.
  unfold command_line. cbn [executor.Command executor.Args].
  apply (strings_Join_split (c :: xs) a b ys " ").
Qed.

Section SSH.

Context {ConfigMap : Type}.
Variable env : Env ConfigMap.

(** X16: the port of the executor [newSSHExec] makes is the text that
    [%v] prints for the configured [Port], with the environment expanded;
    the default 22 replaces it only when that text is empty.  A [Port]
    that was not configured is nil and prints as [<nil>], so it does not
    get the default. *)
Theorem newSSHExec_port st cm e :
  newSSHExec env st cm = (Some e, None) ->
  Port (config e)
  = (if bool_decide (os_ExpandEnv env (Sprintf_v (def_Port (Decode env cm).1)) = "")
     then "22" else os_ExpandEnv env (Sprintf_v (def_Port (Decode env cm).1))) /\
  Port (config e) <> "" /\
  (def_Port (Decode env cm).1 = AnyNil -> os_ExpandEnv env "<nil>" = "<nil>" ->
   Port (config e) = "<nil>").
Proof.
  unfold newSSHExec. destruct (NewDecoder env); [done |].
  destruct (Decode env cm) as [def [err|]]; [done |]. cbn [fst].
  destruct (def_StrictHostKeyChecking def); [done |].
  destruct (selectSSHAuthMethod env _) as [auth [err|]]; [done |].
  intros [= <-]. cbn [config Port]. split_and!.
  - done.
  - by case_bool_decide.
  - intros -> Hx. cbn [Sprintf_v]. rewrite Hx. done.
Qed.

(** X17: [newSSHExec] refuses [StrictHostKeyChecking] whatever else is
    configured.  Otherwise the executor logs in with the private key when
    a key path is configured, and then a key that cannot be read or
    parsed is an error even when a password is there too; only without a
    key path does it log in with the password.  The executor writes to
    [os.Stdout] and has no session yet. *)
Theorem newSSHExec_auth st cm :
  NewDecoder env = None ->
  (Decode env cm).2 = None ->
  let def := (Decode env cm).1 in
  match newSSHExec env st cm with
  | (Some e, None) =>
      def_StrictHostKeyChecking def = false /\
      ClientUser (sshConfig e) = def_User def /\
      stdout e = os_Stdout /\ session e = None /\ step e = st /\
      Auth (sshConfig e)
      = [if bool_decide (def_Key def = "")
         then Some (PasswordAuth (def_Password def))
         else Some (PublicKeys (getPublicKeySigner env (def_Key def)).1)] /\
      (def_Key def <> "" -> (getPublicKeySigner env (def_Key def)).2 = None)
  | (None, Some err) =>
      if def_StrictHostKeyChecking def then err = errStrictHostKey
      else def_Key def <> "" /\ (getPublicKeySigner env (def_Key def)).2 = Some err
  | _ => False
  end.
Proof.
  intros Hnd Hdec. unfold newSSHExec. rewrite Hnd.
  destruct (Decode env cm) as [def derr]. cbn in Hdec. subst derr. cbn [fst].
  destruct (def_StrictHostKeyChecking def); [done |].
  unfold selectSSHAuthMethod. cbn [Key Password].
  assert (Hlen : bool_decide (String.length (def_Key def) = 0%nat)
                 = bool_decide (def_Key def = "")).
  { apply bool_decide_ext. by destruct (def_Key def). }
  rewrite Hlen. clear Hlen. case_bool_decide as Hk; cbn [negb].
  - done.
  - destruct (getPublicKeySigner env (def_Key def)) as [signer [err|]]; done.
Qed.

Lemma write_written out o s w :
  written o (write out s w) = if bool_decide (o = out) then written out w ++ [s] else written o w.
Proof.
  unfold written, write. cbn [outputs]. case_bool_decide as Ho.
  - subst o. by rewrite lookup_insert_eq.
  - by rewrite lookup_insert_ne.
Qed.

Lemma written_log o ev w : written o (log ev w) = written o w.
Proof. done. Qed.

Lemma copy_output_one out chunks w :
  written out (copy_output out out chunks w) = written out w ++ map snd chunks /\
  (forall o, o <> out -> written o (copy_output out out chunks w) = written o w) /\
  trace (copy_output out out chunks w) = trace w.
Proof.
  revert w. induction chunks as [|[[] s] chunks IH]; intros w; cbn [copy_output map snd].
  - by rewrite app_nil_r.
  - destruct (IH (write out s w)) as (H1 & H2 & H3). split_and!.
    + rewrite H1, write_written, bool_decide_eq_true_2 by done. by rewrite <- app_assoc.
    + intros o Ho. rewrite H2, write_written, bool_decide_eq_false_2 by done. done.
    + by rewrite H3.
  - destruct (IH (write out s w)) as (H1 & H2 & H3). split_and!.
    + rewrite H1, write_written, bool_decide_eq_true_2 by done. by rewrite <- app_assoc.
    + intros o Ho. rewrite H2, write_written, bool_decide_eq_false_2 by done. done.
    + by rewrite H3.
Qed.

(** X18: [Run] gives both streams of the session to the one writer the
    executor holds, and [SetStdout] and [SetStderr] set the same field:
    after both, everything the remote command writes, on either stream
    and in the order it was written, goes to the writer of the later
    call, and no other writer gets anything.  The command sent is the
    joined command line, [Run] returns what [session.Run] returns, the
    session is closed once, and it stays recorded in the executor. *)
Theorem Run_one_writer (e : sshExec) (a b : Writer) (w : World) (s : nat) :
  let addr := net_JoinHostPort (IP (config e)) (Port (config e)) in
  let command := command_line (step e) in
  let r := Run env (SetStderr (SetStdout e a) b) w in
  ssh_Dial env addr (sshConfig e) = None ->
  NewSession env = (s, None) ->
  r.1.1 = (session_Run env s command).2 /\
  session r.1.2 = Some s /\
  written b r.2 = written b w ++ map snd (session_Run env s command).1 /\
  (forall o, o <> b -> written o r.2 = written o w) /\
  trace r.2
  = trace w ++ [EvDial addr (sshConfig e); EvNewSession; EvRun s command; EvClose s].
Proof.
  intros addr command r Hdial Hsess. subst r. unfold Run.
  cbn [SetStderr SetStdout config sshConfig step stdout].
  fold addr. rewrite Hdial, Hsess. fold command.
  destruct (session_Run env s command) as [chunks err]. cbn [fst snd].
  match goal with |- context [copy_output b b chunks ?w0] =>
    destruct (copy_output_one b chunks w0) as (H1 & H2 & H3) end.
  rewrite !written_log in H1. split_and!; try done.
  unfold log at 1. cbn [trace]. rewrite H3. unfold log. cbn [trace].
    by rewrite <- !app_assoc.
Qed.

(** X19: [Kill] closes the session only when [Run] got as far as opening
    one.  On an executor without a session it returns nil and does
    nothing, also after a [Run] that failed to dial or to open a session
    (that [Run] returns the error it got).  After a [Run] that opened a
    session, also one that has returned and closed it, [Kill] closes the
    same session again and returns what [Close] returns. *)
Theorem Kill_closes_session_of_Run (e : sshExec) (w : World) :
  session e = None ->
  let addr := net_JoinHostPort (IP (config e)) (Port (config e)) in
  let r := Run env e w in
  Kill env e w = (None, w) /\
  match ssh_Dial env addr (sshConfig e), NewSession env with
  | Some err, _ => r.1.1 = Some err /\ Kill env r.1.2 r.2 = (None, r.2)
  | None, (_, Some err) => r.1.1 = Some err /\ Kill env r.1.2 r.2 = (None, r.2)
  | None, (s, None) =>
      Kill env r.1.2 r.2 = (session_Close env s, log (EvClose s) r.2) /\
      exists t, trace (Kill env r.1.2 r.2).2 = t ++ [EvClose s; EvClose s]
  end.
Proof.
  intros Hs addr r. subst r. unfold Run, Kill. fold addr. rewrite Hs. split; [done |].
  destruct (ssh_Dial env addr (sshConfig e)) as [err|].
  - destruct (NewSession env). cbn. by rewrite Hs.
  - destruct (NewSession env) as [s [err|]].
    + cbn. by rewrite Hs.
    + destruct (session_Run env s _) as [chunks err]. cbn [fst snd session].
      split; [done |]. unfold log. cbn [trace snd]. eexists.
      by rewrite <- app_assoc.
Qed.

End SSH.

Lemma newSSHExec_port_witness :
  exists e,
    newSSHExec plain_Env ssh_step (mkDefinition "alice" "10.0.0.1" AnyNil "" "secret" false)
    = (Some e, None) /\
    Port (config e) = "<nil>".
Proof.
  eexists. split; [reflexivity |].
  apply (newSSHExec_port plain_Env ssh_step
           (mkDefinition "alice" "10.0.0.1" AnyNil "" "secret" false) _ eq_refl);
    reflexivity.
Defined.

Lemma newSSHExec_auth_witness :
  match newSSHExec plain_Env ssh_step
          (mkDefinition "alice" "10.0.0.1" (AnyInt 2222) "/id_rsa" "secret" false) with
  | (Some e, None) => Auth (sshConfig e) = [Some (PublicKeys 1)] /\ Port (config e) = "2222"
  | _ => False
  end.
Proof.
  pose proof (newSSHExec_auth plain_Env ssh_step
                (mkDefinition "alice" "10.0.0.1" (AnyInt 2222) "/id_rsa" "secret" false)
                eq_refl eq_refl) as H.
  vm_compute in H |- *. split; [apply H | reflexivity].
Defined.

Lemma Run_one_writer_witness :
  let r := Run plain_Env (SetStderr (SetStdout plain_sshExec 1%nat) 2%nat)
               (mkWorld ∅ []) in
  written 2%nat r.2 = ["out"; "err"] /\ written 1%nat r.2 = [] /\
  trace r.2 = [EvDial "10.0.0.1:22" (sshConfig plain_sshExec); EvNewSession;
               EvRun 5 "echo hello world"; EvClose 5].
Proof.
  destruct (Run_one_writer plain_Env plain_sshExec 1%nat 2%nat (mkWorld ∅ []) 5%nat
              eq_refl eq_refl) as (_ & _ & H1 & H2 & H3).
  split_and!.
  - exact H1.
  - exact (H2 1%nat ltac:(done)).
  - exact H3.
Defined.

Lemma Kill_closes_session_of_Run_witness :
  let r := Run plain_Env plain_sshExec (mkWorld ∅ []) in
  Kill plain_Env r.1.2 r.2 = (None, log (EvClose 5) r.2).
Proof.
  exact (proj1 (proj2 (Kill_closes_session_of_Run plain_Env plain_sshExec (mkWorld ∅ [])
                         eq_refl))).
Defined.

End sshexec_facts.

(** ** Conditions: which field is evaluated *)

Module digraph_more.
Import digraph.

Section Eval.

Context {World : Type}.
Variable StepContext_EvalString : string -> World -> (string * option error) * World.
Variable Context_EvalString : string -> World -> (string * option error) * World.
Variable cmdutil_EvalString : string -> World -> (string * option error) * World.
Variable shell : string.
Variable exec_Output : list string -> World -> option error * World.

Abbreviation evalCond :=
  (evalCondition StepContext_EvalString Context_EvalString cmdutil_EvalString
                 shell exec_Output).
Abbreviation EvalConds :=
  (EvalConditions StepContext_EvalString Context_EvalString cmdutil_EvalString
                  shell exec_Output).

(** X20: evaluating a list of conditions that is two lists put together
    is evaluating the first list and, only when that returns nil, the
    second one in the world the first left; an error of the first list
    is the result, and the second list is not evaluated. *)
Theorem EvalConditions_app ctx (a b : list Condition) (w : World) :
  EvalConds ctx (a ++ b) w
  = match EvalConds ctx a w with
    | (Some e, w1) => (Some e, w1)
    | (None, w1) => EvalConds ctx b w1
    end.
Proof.
  revert w. induction a as [|c a IH]; intros w; [done |].
  cbn [app EvalConditions]. destruct (evalCond ctx c w) as [[e|] w1]; [done |].
  apply IH.
Qed.

(** X21: a condition with a [Condition] string is decided by that string
    alone: its [Command] is not read, no command is run and
    [cmdutil.EvalString] is not called, so the result is the same for
    any other command, shell and machine to run commands on. *)
Theorem evalCondition_Condition_first ctx (c : Condition) (w : World)
    (command' shell' : string)
    (cmdutil_EvalString' : string -> World -> (string * option error) * World)
    (exec_Output' : list string -> World -> option error * World) :
  Condition_ c <> "" ->
  evalCond ctx c w
  = evalCondition StepContext_EvalString Context_EvalString cmdutil_EvalString'
                  shell' exec_Output' ctx
                  (mkCondition command' (Condition_ c) (Expected c)) w.
Proof.
  intros Hc. unfold evalCondition, Condition_eval. cbn [Condition_ Expected Command].
  rewrite bool_decide_eq_false_2 by done. cbn [negb]. done.
Qed.

(** X22: a condition with a [Command] and no [Condition] string does not
    read [Expected].  When the command string evaluates without error the
    condition is met exactly when the command, run through the shell if
    there is one and directly otherwise, succeeds; a command that fails
    is reported as [ErrConditionNotMet], and the world is the one the
    command left. *)
Theorem evalCondition_Command_only ctx (c : Condition) (w : World) command w1 :
  Condition_ c = "" ->
  Command c <> "" ->
  (if IsStepContext ctx then StepContext_EvalString
   else if IsContext ctx then Context_EvalString
   else cmdutil_EvalString) (Command c) w = ((command, None), w1) ->
  let argv := if bool_decide (shell = "") then [command] else [shell; "-c"; command] in
  (forall expected', evalCond ctx (mkCondition (Command c) "" expected') w = evalCond ctx c w) /\
  (evalCond ctx c w).2 = (exec_Output argv w1).2 /\
  ((evalCond ctx c w).1 = None <-> (exec_Output argv w1).1 = None) /\
  (forall e, (evalCond ctx c w).1 = Some e -> errors_Is e ErrConditionNotMet = true).
Proof.
  intros Hc Hcmd Hev argv.
  assert (Heval : Condition_evalCommand StepContext_EvalString Context_EvalString
                    cmdutil_EvalString shell exec_Output c ctx w
                  = match exec_Output argv w1 with
                    | (Some err, w2) =>
                        ((false,
                          Some (Errorf_w (Error ErrConditionNotMet +:+ ": " +:+ Error err)
                                         ErrConditionNotMet)), w2)
                    | (None, w2) => ((true, None), w2)
                    end).
  { unfold Condition_evalCommand.
    destruct (IsStepContext ctx); [| destruct (IsContext ctx)]; rewrite Hev; done. }
  assert (Hres : evalCond ctx c w
                 = match exec_Output argv w1 with
                   | (Some err, w2) =>
                       (Some (Errorf_w (Error ErrConditionNotMet +:+ ": " +:+ Error err)
                                       ErrConditionNotMet), w2)
                   | (None, w2) => (None, w2)
                   end).
  { unfold evalCondition, Condition_eval. rewrite Hc.
    rewrite (bool_decide_eq_true_2 ("" = "")) by done.
    rewrite bool_decide_eq_false_2 by done. cbn [negb]. rewrite Heval.
    destruct (exec_Output argv w1) as [[err|] w2]; done. }
  split_and!.
  - intros expected'. rewrite Hres. destruct c as [cmd cnd ex]. cbn in Hc, Hcmd, Heval |- *.
    subst cnd. unfold evalCondition, Condition_eval. cbn [Condition_ Command Expected].
    rewrite (bool_decide_eq_true_2 ("" = "")) by done.
    rewrite bool_decide_eq_false_2 by done. cbn [negb].
    unfold Condition_evalCommand in *. cbn [Command] in *. rewrite Heval.
    destruct (exec_Output argv w1) as [[err|] w2]; done.
  - rewrite Hres. by destruct (exec_Output argv w1) as [[err|] w2].
  - rewrite Hres. by destruct (exec_Output argv w1) as [[err|] w2].
  - intros e. rewrite Hres. destruct (exec_Output argv w1) as [[err|] w2]; [| done].
    by intros [= <-].
Qed.

End Eval.

Lemma evalCondition_Condition_first_witness :
  quiet_EvalConditions StepCtx [mkCondition "false" "a" "a"] [] = (None, []).
Proof.
  unfold quiet_EvalConditions. cbn [EvalConditions].
  rewrite (evalCondition_Condition_first quiet_EvalString quiet_EvalString quiet_EvalString
             "sh" quiet_Output StepCtx (mkCondition "false" "a" "a") [] "" ""
             quiet_EvalString quiet_Output ltac:(done)).
  reflexivity.
Defined.

Lemma evalCondition_Command_only_witness :
  evalCondition quiet_EvalString quiet_EvalString quiet_EvalString "sh" quiet_Output
                StepCtx (mkCondition "true" "" "never read") []
  = evalCondition quiet_EvalString quiet_EvalString quiet_EvalString "sh" quiet_Output
                  StepCtx (mkCondition "true" "" "") [].
Proof.
  exact (proj1 (evalCondition_Command_only quiet_EvalString quiet_EvalString
                  quiet_EvalString "sh" quiet_Output StepCtx (mkCondition "true" "" "") []
                  "true" [] eq_refl ltac:(done) eq_refl) "never read").
Defined.

End digraph_more.

(** ** Starting a DAG *)

Module engine_facts.
Import engine.

Lemma escapeArg_no_break input dq r :
  r = CR \/ r = LF -> r ∉ escapeArg input dq.
Proof.
  intros Hr. induction input as [|c input IH]; cbn [escapeArg]; [by apply not_elem_of_nil |].
  rewrite elem_of_app. intros [Hin | Hin]; [| done].
  repeat case_bool_decide; cbn in Hin; subst;
    repeat (apply elem_of_cons in Hin as [Hin | Hin]); try (by apply not_elem_of_nil in Hin);
    destruct dq; cbn in *; unfold CR, LF, QUOTE, BACKSLASH in *;
    repeat (apply elem_of_cons in Hin as [Hin | Hin]); try (by apply not_elem_of_nil in Hin);
    destruct Hr; subst; try done; try lia.
Qed.

(** Runes without a line break are written back as they were read. *)
Lemma escapeArg_plain input :
  CR ∉ input -> LF ∉ input -> escapeArg input false = input.
Proof.
  induction input as [|c input IH]; [done |].
  rewrite !not_elem_of_cons. intros [Hc1 H1] [Hc2 H2]. cbn [escapeArg].
  rewrite !bool_decide_eq_false_2 by done. rewrite andb_false_r. cbn [app].
  by rewrite IH.
Qed.

Lemma count_app r a b : count r (a ++ b) = (count r a + count r b)%nat.
Proof. unfold count. by rewrite filter_app, length_app. Qed.

Lemma count_escapeArg_quote input :
  count QUOTE (escapeArg input false) = count QUOTE input.
Proof.
  induction input as [|c input IH]; [done |].
  cbn [escapeArg]. rewrite count_app, IH.
  change (c :: input) with ([c] ++ input). rewrite count_app. f_equal.
  rewrite andb_false_r. repeat case_bool_decide; subst; done.
Qed.

(** X23: the result of [escapeArg] has no carriage return and no line
    feed, with and without [doubleQuotes].  Without [doubleQuotes],
    escaping what was escaped changes nothing.  The backslash is not
    escaped, so a line feed and the two characters backslash and [n]
    have the same escape: the input cannot be told from the result. *)
Theorem escapeArg_line_breaks (input rest : runes) (doubleQuotes : bool) :
  (CR ∉ escapeArg input doubleQuotes) /\
  (LF ∉ escapeArg input doubleQuotes) /\
  escapeArg (escapeArg input false) false = escapeArg input false /\
  escapeArg (LF :: rest) doubleQuotes = escapeArg (BACKSLASH :: 110 :: rest) doubleQuotes.
Proof.
  split_and!.
  - apply escapeArg_no_break. by left.
  - apply escapeArg_no_break. by right.
  - apply escapeArg_plain; apply escapeArg_no_break; [by left | by right].
  - by destruct doubleQuotes.
Qed.

Section Engine.

Variable cmd_Start : Cmd -> option error.
Variable cmd_Wait : Cmd -> option error.

(** X24: [Start] runs one command, the executable of the engine in its
    working directory, and waits for it only when it started; it returns
    the error of the start, or else of the wait.  The last argument is
    the location of the DAG.  Parameters that are not empty are passed
    as one argument after [-p]: it is put between double quotes and has
    no line break, but the double quotes of the parameters are not
    escaped, so it has two more of them than the parameters. *)
Theorem Start_one_command (e : engineImpl) (location params : runes) (w : list Event) :
  let r := Start cmd_Start cmd_Wait e location params w in
  exists cmd,
    Path cmd = executable e /\ Dir cmd = workDir e /\
    last (Args cmd) = Some location /\
    r = match cmd_Start cmd with
        | Some err => (Some err, w ++ [EvStart cmd])
        | None => (cmd_Wait cmd, w ++ [EvStart cmd; EvWait cmd])
        end /\
    match params with
    | [] => Args cmd = [literal "start"; location]
    | _ =>
        exists q,
          Args cmd = [literal "start"; literal "-p"; q; location] /\
          q = QUOTE :: escapeArg params false ++ [QUOTE] /\
          (CR ∉ q) /\ (LF ∉ q) /\
          count QUOTE q = (2 + count QUOTE params)%nat
    end.
Proof.
  intros r. subst r. unfold Start.
  exists (mkCmd (executable e) (Start_args location params) (workDir e)).
  split_and!; cbn [Path Dir Args].
  - reflexivity.
  - reflexivity.
  - unfold Start_args. by rewrite last_snoc.
  - destruct (cmd_Start _); [done |]. by rewrite <- app_assoc.
  - destruct params as [|c params]; [done |].
    exists (QUOTE :: escapeArg (c :: params) false ++ [QUOTE]). split_and!.
    + unfold Start_args. rewrite bool_decide_eq_false_2 by done. reflexivity.
    + reflexivity.
    + rewrite not_elem_of_cons, elem_of_app, list_elem_of_singleton.
      split; [done |]. intros [H | H]; [| done].
      revert H. apply escapeArg_no_break. by left.
    + rewrite not_elem_of_cons, elem_of_app, list_elem_of_singleton.
      split; [done |]. intros [H | H]; [| done].
      revert H. apply escapeArg_no_break. by right.
    + change (QUOTE :: escapeArg (c :: params) false ++ [QUOTE])
        with ([QUOTE] ++ escapeArg (c :: params) false ++ [QUOTE]).
      rewrite !count_app, count_escapeArg_quote.
      change (count QUOTE [QUOTE]) with 1%nat. lia.
Qed.

End Engine.

End engine_facts.

(** ** The latest status files *)

Module jsondb_facts.
Import jsondb.

Lemma ltb_irrefl (s : string) : String.ltb s s = false.
Proof.
  unfold String.ltb. pose proof (String.compare_antisym s s) as H.
  by destruct (String.compare s s).
Qed.

Section Files.

Variable timestamp : string -> string.
Variable sort_Slice : (string -> string -> bool) -> list string -> list string.
Variable filepath_Glob : string -> list string * option error.
Variable prefixWithDirectory : string -> string.
Variable day_Format : string.
Variable ErrNoStatusDataToday : error.
Variable ErrNoStatusData : error.
Variable maxCap : Z.

Lemma first_files_take n (files : list string) : first_files n files = take n files.
Proof.
  revert files. induction n as [|n IH]; intros [|f files]; cbn; try done.
Qed.

(** X25: for files that are not empty and a count that is not negative,
    [filterLatest] returns the files with the latest timestamps: as many
    as asked for, or all the files when there are fewer, and no file
    that was left out has a later timestamp than a file returned. *)
Theorem filterLatest_newest (files : list string) (n : Z) :
  files <> [] ->
  0 <= n <= maxCap ->
  sorted_latest_first timestamp sort_Slice files ->
  exists ret rest,
    filterLatest timestamp sort_Slice maxCap files n = Returned ret /\
    length ret = Nat.min (Z.to_nat n) (length files) /\
    files ≡ₚ ret ++ rest /\
    (forall f g, f ∈ ret -> g ∈ rest -> later timestamp g f = false).
Proof.
  intros Hne Hn [Hperm Hsorted]. unfold filterLatest.
  rewrite bool_decide_eq_false_2 by (by destruct files).
  replace ((n <? 0) || (maxCap <? n)) with false
    by (symmetry; apply orb_false_iff; split; apply Z.ltb_ge; lia).
  rewrite first_files_take.
  set (sorted := sort_Slice (later timestamp) files) in *.
  exists (take (Z.to_nat n) sorted), (drop (Z.to_nat n) sorted). split_and!.
  - done.
  - by rewrite length_take, (Permutation_length Hperm).
  - by rewrite take_drop.
  - intros f g Hf Hg. rewrite <- (take_drop (Z.to_nat n) sorted) in Hsorted.
    apply (StronglySorted_app_1_elem_of _ _ _ f g Hsorted Hf Hg).
Qed.

(** X26: with a negative count [latest] panics as soon as the pattern
    matches a file, and returns the empty list when it matches none;
    an error of [filepath.Glob] changes nothing, the matches it returned
    are used all the same. *)
Theorem latest_negative (pattern : string) (n : Z) :
  n < 0 ->
  latest timestamp sort_Slice filepath_Glob maxCap pattern n
  = match (filepath_Glob pattern).1 with
    | [] => Returned []
    | _ :: _ => Panicked
    end.
Proof.
  intros Hn. unfold latest. destruct (filepath_Glob pattern) as [matches err]. cbn [fst].
  rewrite (bool_decide_eq_true_2 (0 <= Z.of_nat (length matches))) by lia.
  rewrite orb_true_r. unfold filterLatest.
  destruct matches as [|f matches]; [done |].
  rewrite bool_decide_eq_false_2 by done.
  by rewrite (proj2 (Z.ltb_lt n 0) Hn).
Qed.

(** X27: [latestToday] returns either the error [ErrNoStatusDataToday]
    and no file, exactly when [filepath.Glob] failed or matched nothing,
    or no error and a file among the matches with the latest timestamp.
    It does not panic, and the value [ErrNoStatusData] is never
    returned: the result is the same whatever that value is. *)
Theorem latestToday_result (dagFile : string) (latestStatusToday : bool) :
  let glob :=
    filepath_Glob (today_pattern prefixWithDirectory day_Format dagFile latestStatusToday) in
  1 <= maxCap ->
  sorted_latest_first timestamp sort_Slice glob.1 ->
  (forall other,
     latestToday timestamp sort_Slice filepath_Glob prefixWithDirectory day_Format
                 ErrNoStatusDataToday other maxCap dagFile latestStatusToday
     = latestToday timestamp sort_Slice filepath_Glob prefixWithDirectory day_Format
                   ErrNoStatusDataToday ErrNoStatusData maxCap dagFile latestStatusToday) /\
  match latestToday timestamp sort_Slice filepath_Glob prefixWithDirectory day_Format
                    ErrNoStatusDataToday ErrNoStatusData maxCap dagFile latestStatusToday with
  | Returned (file, None) =>
      glob.2 = None /\ file ∈ glob.1 /\
      (forall g, g ∈ glob.1 -> later timestamp g file = false)
  | Returned (file, Some e) =>
      file = "" /\ e = ErrNoStatusDataToday /\ (glob.2 <> None \/ glob.1 = [])
  | Panicked => False
  end.
Proof.
  intros glob Hcap [Hperm Hsorted]. subst glob. unfold latestToday.
  destruct (filepath_Glob _) as [matches err]. cbn [fst snd] in *.
  destruct err as [err|].
  { rewrite (bool_decide_eq_true_2 (Some err <> None)) by done. cbn [orb].
    split; [done |]. split_and!; [done | done | by left]. }
  rewrite (bool_decide_eq_false_2 (None <> None)) by (intros H; by apply H). cbn [orb].
  destruct matches as [|m matches].
  { rewrite bool_decide_eq_true_2 by done. split; [done |]. split_and!; [done | done | by right]. }
  rewrite bool_decide_eq_false_2 by done. unfold filterLatest.
  rewrite bool_decide_eq_false_2 by done.
  replace ((1 <? 0) || (maxCap <? 1)) with false
    by (symmetry; apply orb_false_iff; split; apply Z.ltb_ge; lia).
  set (sorted := sort_Slice (later timestamp) (m :: matches)) in *.
  destruct sorted as [|s sorted'] eqn:Hs.
  { apply Permutation_length in Hperm. done. }
  change (Z.to_nat 1) with 1%nat. cbn [first_files]. split; [done |]. split_and!.
  - done.
  - rewrite Hperm. by left.
  - intros g Hg. rewrite Hperm in Hg. apply elem_of_cons in Hg as [-> | Hg].
    + unfold later. apply ltb_irrefl.
    + apply StronglySorted_cons in Hsorted as [Hall _].
      rewrite Forall_forall in Hall. by apply Hall.
Qed.

End Files.

Lemma sort_two_sorted :
  sorted_latest_first file_ts sort_two [older_file; newer_file].
Proof.
  split.
  - change (sort_two (later file_ts) [older_file; newer_file])
      with [newer_file; older_file]. apply perm_swap.
  - change (sort_two (later file_ts) [older_file; newer_file])
      with [newer_file; older_file]. repeat constructor.
Qed.

Lemma filterLatest_newest_witness :
  exists ret rest,
    filterLatest file_ts sort_two 1000 [older_file; newer_file] 1 = Returned ret /\
    length ret = 1%nat /\
    [older_file; newer_file] ≡ₚ ret ++ rest /\
    (forall f g, f ∈ ret -> g ∈ rest -> later file_ts g f = false).
Proof.
  apply (filterLatest_newest file_ts sort_two 1000 [older_file; newer_file] 1).
  - done.
  - lia.
  - exact sort_two_sorted.
Defined.

Lemma latest_negative_witness :
  latest file_ts sort_two (fun _ => ([older_file; newer_file], None)) 1000 "a*.dat" (-1)
  = Panicked.
Proof.
  apply (latest_negative file_ts sort_two (fun _ => ([older_file; newer_file], None))
           1000 "a*.dat" (-1)).
  lia.
Defined.

Lemma latestToday_result_witness :
  match latestToday file_ts sort_two (fun _ => ([older_file; newer_file], None)) (fun f => f)
                    "20240102" (errorString "no status data today")
                    (errorString "no status data") 1000 "a" false with
  | Returned (file, None) =>
      file ∈ [older_file; newer_file] /\
      (forall g, g ∈ [older_file; newer_file] -> later file_ts g file = false)
  | _ => False
  end.
Proof.
  pose proof (latestToday_result file_ts sort_two
                (fun _ => ([older_file; newer_file], None)) (fun f => f) "20240102"
                (errorString "no status data today") (errorString "no status data") 1000
                "a" false ltac:(lia) sort_two_sorted) as [_ H].
  cbn [fst snd] in H.
  destruct (latestToday _ _ _ _ _ _ _ _ _ _) as [[file [e|]]|].
  - destruct H as (_ & _ & [H | H]); done.
  - destruct H as (_ & H1 & H2). by split.
  - done.
Defined.

End jsondb_facts.

(** ** Mails about a run *)

Module reporter_facts.
Import reporter.

Lemma addAttachmentList_logs trigger nodes :
  addAttachmentList trigger nodes = if trigger then map Log nodes else [].
Proof.
  unfold addAttachmentList. destruct trigger; [| done].
  assert (H : forall acc, foldl (fun attachments n => attachments ++ [Log n]) acc nodes
                          = acc ++ map Log nodes).
  { induction nodes as [|n nodes IH]; intros acc; cbn; [by rewrite app_nil_r |].
    by rewrite IH, <- app_assoc. }
  apply (H []).
Qed.

Lemma mails_app w1 w2 : mails (w1 ++ w2) = mails w1 ++ mails w2.
Proof. unfold mails. apply omap_app. Qed.

Lemma mails_nil : mails [] = [].
Proof. reflexivity. Qed.

Lemma mails_log line : mails [EvLog line] = [].
Proof. reflexivity. Qed.

Lemma mails_mail m : mails [EvMail m] = [m].
Proof. reflexivity. Qed.

Section Reporter.

Variable Status_String : scheduler.Status -> string.
Variable renderHTML : list Node -> string.
Variable Mailer_SendMail : Mail -> option error.

Abbreviation report_mail' := (report_mail Status_String renderHTML).
Abbreviation SendMail' := (SendMail Status_String renderHTML Mailer_SendMail).
Abbreviation ReportStep' := (ReportStep Status_String renderHTML Mailer_SendMail).

(** X28: [SendMail] returns an error only when the run failed, the DAG
    asks for a mail on failure, and the mailer could not send that mail:
    the error is the mailer's.  So when the run succeeded, an error of
    the mailer is dropped and [SendMail] returns nil. *)
Theorem SendMail_error_is_failure_mail dg status err w e w' :
  SendMail Status_String renderHTML Mailer_SendMail dg status err w
  = (Returned (Some e), w') ->
  (err <> None \/ Status_ status = scheduler.StatusError) /\
  exists on cfg,
    DAG_MailOn dg = Some on /\ Failure on = true /\ ErrorMail dg = Some cfg /\
    w' = w ++ [EvMail (report_mail Status_String renderHTML cfg dg status)] /\
    Mailer_SendMail (report_mail Status_String renderHTML cfg dg status) = Some e.
Proof.
  unfold SendMail.
  destruct (bool_decide (err <> None) || bool_decide (Status_ status = scheduler.StatusError))
    eqn:Hfail.
  - destruct (DAG_MailOn dg) as [on|]; [| done].
    destruct (Failure on) eqn:Hon; [| done].
    destruct (ErrorMail dg) as [cfg|]; [| done].
    intros [= He <-]. split.
    + apply orb_true_iff in Hfail as [H | H]; apply bool_decide_eq_true in H; auto.
    + by exists on, cfg.
  - destruct (bool_decide (Status_ status = scheduler.StatusSuccess)); [| done].
    destruct (DAG_MailOn dg) as [on|]; [| done].
    destruct (Success on); [| done].
    destruct (InfoMail dg); done.
Qed.

(** X29: a failure comes first.  When an error is given or the status is
    the error status, [SendMail] reads neither the success flag nor the
    success mail configuration, also when the status says success: the
    result is the same whatever they are, and the only mail that may be
    sent is the one built from the error mail configuration, with the
    logs of all the nodes attached, in order, when it asks for them. *)
Theorem SendMail_failure_first dg status err w success' info' :
  err <> None \/ Status_ status = scheduler.StatusError ->
  SendMail' dg status err w
  = SendMail' (mkDAG (Name dg)
                     (option_map (fun on => mkMailOn (Failure on) success') (DAG_MailOn dg))
                     (ErrorMail dg) info') status err w /\
  forall m, m ∈ mails (SendMail' dg status err w).2 -> m ∈ mails w \/
    exists cfg, ErrorMail dg = Some cfg /\ m = report_mail' cfg dg status /\
      attachments m = if AttachLogs cfg then map Log (Nodes status) else [].
Proof.
  intros Hfail.
  assert (Hb : bool_decide (err <> None)
               || bool_decide (Status_ status = scheduler.StatusError) = true).
  { apply orb_true_iff. destruct Hfail; [left | right]; by apply bool_decide_eq_true. }
  unfold SendMail. rewrite Hb. cbn [DAG_MailOn ErrorMail Name]. split.
  - destruct (DAG_MailOn dg) as [on|]; cbn [option_map Failure]; [| done].
    destruct (Failure on); [| done]. by destruct (ErrorMail dg).
  - intros m. destruct (DAG_MailOn dg) as [on|]; [| by left].
    destruct (Failure on); [| by left].
    destruct (ErrorMail dg) as [cfg|]; [| by left].
    cbn [snd]. rewrite mails_app, elem_of_app. intros [H | H]; [by left |].
    right. exists cfg. cbn in H. apply list_elem_of_singleton in H as ->.
    split_and!; [done | done |]. cbn [report_mail attachments].
    apply addAttachmentList_logs.
Qed.

(** X30: [ReportStep] does not read what the DAG says about mails on
    failure or success: the result is the same whatever [MailOn] and
    the success mail configuration are.  It sends a mail exactly for a
    node with the error status whose step has [MailOnError], and that
    mail is the one [SendMail] sends for a failed run of a DAG that
    mails on failure; it logs one line unless the node has the status
    none. *)
Theorem ReportStep_mail dg status st step w mailOn' info' on err :
  ReportStep' dg status st step w
  = ReportStep' (mkDAG (Name dg) mailOn' (ErrorMail dg) info') status st step w /\
  mails (ReportStep' dg status st step w).2
  = mails w ++
    (if bool_decide (st = scheduler.NodeStatusError) && MailOnError step
     then mails (SendMail' (mkDAG (Name dg) (Some (mkMailOn true on)) (ErrorMail dg) info')
                           status (Some err) []).2
     else []) /\
  length (ReportStep' dg status st step w).2
  = (length w
     + (if bool_decide (st = scheduler.NodeStatusNone) then 0 else 1)
     + (if bool_decide (st = scheduler.NodeStatusError) && MailOnError step
        then (match ErrorMail dg with Some _ => 1 | None => 0 end) else 0))%nat.
Proof.
  unfold ReportStep, SendMail. cbn [DAG_MailOn ErrorMail Name Failure].
  rewrite (bool_decide_eq_true_2 (Some err <> None)) by done. cbn [orb].
  destruct (bool_decide (st = scheduler.NodeStatusNone)); cbn [negb];
    destruct (bool_decide (st = scheduler.NodeStatusError) && MailOnError step);
    destruct (ErrorMail dg) as [cfg|]; cbn [snd app];
    rewrite ?mails_app, ?length_app, ?mails_log, ?mails_mail, ?mails_nil, ?app_nil_r;
    cbn [length]; (split_and!; [reflexivity | reflexivity | lia]).
Qed.

End Reporter.

Lemma SendMail_error_is_failure_mail_witness :
  exists cfg,
    ErrorMail mailing_DAG = Some cfg /\
    failing_Mailer (report_mail status_text (fun _ => "<table>") cfg mailing_DAG
                      (mkStatus scheduler.StatusError "failed" []))
    = Some (errorString "smtp down").
Proof.
  destruct (SendMail_error_is_failure_mail status_text (fun _ => "<table>") failing_Mailer
              mailing_DAG (mkStatus scheduler.StatusError "failed" []) None []
              (errorString "smtp down") _ eq_refl) as (_ & on & cfg & _ & _ & Hc & _ & Hm).
  by exists cfg.
Defined.

Lemma SendMail_failure_first_witness :
  SendMail status_text (fun _ => "<table>") failing_Mailer mailing_DAG
           (mkStatus scheduler.StatusSuccess "finished" []) (Some (errorString "late")) []
  = SendMail status_text (fun _ => "<table>") failing_Mailer
             (mkDAG "test DAG" (Some (mkMailOn true false))
                    (Some (mkMailConfig "from@mailer.com" "to@mailer.com" "Error: " true))
                    None)
             (mkStatus scheduler.StatusSuccess "finished" []) (Some (errorString "late")) [].
Proof.
  assert (Hf : Some (errorString "late") <> None \/
               Status_ (mkStatus scheduler.StatusSuccess "finished" [])
               = scheduler.StatusError).
  { left. discriminate. }
  exact (proj1 (SendMail_failure_first status_text (fun _ => "<table>") failing_Mailer
                  mailing_DAG (mkStatus scheduler.StatusSuccess "finished" [])
                  (Some (errorString "late")) [] false None Hf)).
Defined.

End reporter_facts.
